(** * pybullet-helpers: the single-arm robot model

    A shallow embedding of [pybullet_helpers/robots/single_arm.py]
    (class [SingleArmPyBulletRobot]) together with the properties of its
    joint bookkeeping, motor commands and inverse-kinematics orchestration.

    Conventions of the embedding.
    - Python floats are idealised as rationals ([Q]); they are only stored,
      copied and compared, except in [allclose].
    - A Python exception is a value of [exn]; a method that touches the
      PyBullet engine is a function [Engine -> (exn + A) * Engine], so the
      engine state reached when an exception is raised stays observable.
    - One robot body lives in one physics client, hence the engine state
      is indexed by joint index only ([robot_id] and [physics_client_id]
      are the constant keys of every call and are left implicit). *)

From Stdlib Require Import ZArith QArith Qabs String.
From stdpp Require Import base tactics option list gmap sorting strings.

Local Open Scope Z_scope.

(* ===================================================================== *)
(** ** Data *)

Abbreviation JointPositions := (list Q).
Definition Pose3D := (Q * Q * Q)%type.
Definition Quaternion := (Q * Q * Q * Q)%type.

Record Pose := mkPose {
  position : Pose3D;
  orientation : Quaternion
}.

(** The fields of [pybullet_helpers.joint.JointInfo] read by this module. *)
Record JointInfo := mkJointInfo {
  jointIndex : Z;
  jointName : string;
  linkName : string;
  parentIndex : Z
}.

Record LinkState := mkLinkState {
  worldLinkFramePosition : Pose3D;
  worldLinkFrameOrientation : Quaternion
}.

Record IKFastInfo := mkIKFastInfo {
  module_dir : string;
  module_name : string;
  base_link : string;
  ee_link : string;
  free_joints : list string
}.

(** Modelled from the spec: the constant [BASE_LINK] of
    [pybullet_helpers.link], which is not among the sources; the spec gives
    the reserved sentinel as -1. *)
Definition BASE_LINK : Z := -1.

(** What a [ValueError] raised in this module is about. *)
Inductive ValueErrorArg :=
| NameNotInList (name : string)
| IdNotInList (joint_id : Z)
| CouldNotFindLink (link_name : string)
| JointStatesDoNotMatch (target_pos ee_pos : Pose3D).

(** The argument an [InverseKinematicsError] is built from: the message
    of the "no solution" branch, or the caught [ValueError]. *)
Inductive IKErrorArg :=
| NoIKSolutionFound (target : Pose)
| FromValueError (e : ValueErrorArg).

Inductive exn :=
| AssertionError
| ValueError (arg : ValueErrorArg)
| NotImplementedError (control_mode : string)
| InverseKinematicsError (arg : IKErrorArg)
| PyBulletError (joint_id : Z)
| ChainBuildError.

(** The Python class of an exception, which is what [except] clauses and
    callers dispatch on. *)
Inductive exn_class :=
| AssertionError_cls
| ValueError_cls
| NotImplementedError_cls
| InverseKinematicsError_cls
| PyBulletError_cls
| ChainBuildError_cls.

Definition class_of (e : exn) : exn_class :=
  match e with
  | AssertionError => AssertionError_cls
  | ValueError _ => ValueError_cls
  | NotImplementedError _ => NotImplementedError_cls
  | InverseKinematicsError _ => InverseKinematicsError_cls
  | PyBulletError _ => PyBulletError_cls
  | ChainBuildError => ChainBuildError_cls
  end.

#[global] Instance exn_class_eq_dec : EqDecision exn_class.
Proof. solve_decision. Defined.

(* ===================================================================== *)
(** ** The engine and the monad of engine calls *)

Record JointState := mkJointState {
  jointPosition : Q;
  jointVelocity : Q
}.

(** One [setJointMotorControlArray] call in [POSITION_CONTROL] mode. *)
Record MotorCommand := mkMotorCommand {
  jointIndices : list Z;
  targetPositions : list Q
}.

(** The part of the engine this module reads and writes: the state of each
    joint of the body, and the motor commands issued so far (newest first). *)
Record Engine := mkEngine {
  joints : gmap Z JointState;
  commands : list MotorCommand
}.

Definition M (A : Type) : Type := Engine -> (exn + A) * Engine.

Definition ret {A} (a : A) : M A := fun e => (inr a, e).
Definition raise {A} (x : exn) : M A := fun e => (inl x, e).
Definition bind {A B} (m : M A) (k : A -> M B) : M B :=
  fun e => match m e with
           | (inr a, e') => k a e'
           | (inl x, e') => (inl x, e')
           end.
(** A computation that cannot touch the engine (a property, a lookup). *)
Definition lift {A} (r : exn + A) : M A := fun e => (r, e).
(** A read of the engine. *)
Definition query {A} (f : Engine -> exn + A) : M A := fun e => (f e, e).
(** [try: ... except ValueError as e: raise h(e)]. *)
Definition except_ValueError {A} (m : M A) (h : ValueErrorArg -> exn) : M A :=
  fun e => match m e with
           | (inl (ValueError a), e') => (inl (h a), e')
           | r => r
           end.
Definition py_assert (b : bool) : M unit :=
  if b then ret tt else raise AssertionError.

Declare Scope eng_scope.
Delimit Scope eng_scope with eng.
Notation "x <- m ;; k" := (bind m (fun x => k))
  (at level 100, m at next level, right associativity) : eng_scope.
Notation "m ;;; k" := (bind m (fun _ => k))
  (at level 100, right associativity) : eng_scope.
Local Open Scope eng_scope.

(** Pure binds, for the properties that only read cached, static data. *)
Definition pbind {A B} (r : exn + A) (k : A -> exn + B) : exn + B :=
  match r with inr a => k a | inl x => inl x end.
Notation "x <~ r ;; k" := (pbind r (fun x => k))
  (at level 100, r at next level, right associativity) : eng_scope.

(** [p.resetJointState(robot, joint_id, targetValue, targetVelocity)]:
    overwrites position and velocity of an existing joint. *)
Definition resetJointState (joint_id : Z) (targetValue targetVelocity : Q)
  : M unit :=
  fun e => match joints e !! joint_id with
           | Some _ =>
               (inr tt,
                mkEngine (<[joint_id := mkJointState targetValue targetVelocity]>
                            (joints e))
                         (commands e))
           | None => (inl (PyBulletError joint_id), e)
           end.

(** [p.getJointState(robot, joint_id)]. *)
Definition getJointState (joint_id : Z) (e : Engine) : exn + JointState :=
  match joints e !! joint_id with
  | Some s => inr s
  | None => inl (PyBulletError joint_id)
  end.

(** [p.setJointMotorControlArray(..., controlMode=POSITION_CONTROL, ...)]:
    one batched command. *)
Definition setJointMotorControlArray (ids : list Z) (targets : list Q)
  : M unit :=
  fun e => (inr tt, mkEngine (joints e) (mkMotorCommand ids targets :: commands e)).

(* ===================================================================== *)
(** ** Python list primitives *)

(** [l.index(x)]: position of the first occurrence. *)
Fixpoint py_index {A} `{EqDecision A} (x : A) (l : list A) : option nat :=
  match l with
  | [] => None
  | y :: l' => if decide (y = x) then Some O else S <$> py_index x l'
  end.

(** [l.insert(i, x)] for a non-negative [i]: past the end it appends. *)
Definition py_insert {A} (i : nat) (x : A) (l : list A) : list A :=
  take i l ++ x :: drop i l.

(** [sorted(l)] on integers. *)
Definition sorted (l : list Z) : list Z := merge_sort Z.le l.

(** [numpy.allclose(a, b, atol=atol)] on two 3-vectors: numpy's documented
    element-wise test [|a - b| <= atol + rtol * |b|], with the default
    [rtol = 1e-05] that the call site leaves in place. *)
Definition default_rtol : Q := 1 # 100000.

Definition isclose (a b rtol atol : Q) : bool :=
  Qle_bool (Qabs (a - b)) (atol + rtol * Qabs b).

Definition allclose (a b : Pose3D) (atol : Q) : bool :=
  let '(ax, ay, az) := a in
  let '(bx, by_, bz) := b in
  isclose ax bx default_rtol atol
  && isclose ay by_ default_rtol atol
  && isclose az bz default_rtol atol.

(* ===================================================================== *)
(** ** The robot *)

(** The abstract properties and class methods a concrete robot overrides. *)
Record RobotClass := mkRobotClass {
  get_name : string;
  urdf_path : string;
  default_home_joint_positions : JointPositions;
  end_effector_name : string;
  tool_link_name : string;
  left_finger_joint_name : string;
  right_finger_joint_name : string;
  open_fingers : Q;
  closed_fingers : Q;
  ikfast_info : option IKFastInfo
}.

(** What the engine reports about a loaded body; it does not change after
    loading ([p.getBodyInfo], [get_joints] and [get_joint_infos]). *)
Record Body := mkBody {
  base_link_name : string;
  joint_infos : list JointInfo
}.

(** An instance of [SingleArmPyBulletRobot]: the attributes set by
    [__init__].  The cached properties are functions of these. *)
Record Robot := mkRobot {
  cls : RobotClass;
  _base_pose : Pose;
  _control_mode : string;
  _home_joint_positions : JointPositions;
  body : Body
}.

(** The collaborators this module calls but does not define. *)
Record External := mkExternal {
  (** [p.loadURDF]: adds the body to the engine. *)
  loadURDF : string -> Pose -> M Body;
  (** [pybullet_helpers.joint.get_kinematic_chain]. *)
  get_kinematic_chain : list JointInfo -> Z -> exn + list Z;
  (** [pybullet_helpers.link.get_link_state], a read of the engine. *)
  get_link_state : Z -> Engine -> LinkState;
  (** [pybullet_helpers.ikfast.utils.ikfast_closest_inverse_kinematics]:
      reads the current joints as the seed, returns the ranked solutions. *)
  ikfast_closest_inverse_kinematics : Robot -> Pose -> Engine -> list JointPositions;
  (** [pybullet_helpers.inverse_kinematics.pybullet_inverse_kinematics]. *)
  pybullet_inverse_kinematics :
    Z -> Pose3D -> Quaternion -> list Z -> bool -> M JointPositions
}.

(** Modelled from the spec: [get_joint_positions] of
    [pybullet_helpers.joint], which is not among the sources: it reads the
    engine's current per-joint state for every given joint, in order. *)
Fixpoint get_joint_positions (ids : list Z) (e : Engine) : exn + JointPositions :=
  match ids with
  | [] => inr []
  | j :: ids' =>
      s <~ getJointState j e ;;
      rest <~ get_joint_positions ids' e ;;
      inr (jointPosition s :: rest)
  end.

(** The body of the loop of [set_joints]. *)
Fixpoint reset_each (ws : list (Z * Q)) : M unit :=
  match ws with
  | [] => ret tt
  | (joint_id, joint_val) :: ws' =>
      resetJointState joint_id joint_val 0 ;;; reset_each ws'
  end.

(** The body of the loop of [link_from_name]. *)
Fixpoint link_loop (link_name : string) (infos : list JointInfo) : exn + Z :=
  match infos with
  | [] => inl (ValueError (CouldNotFindLink link_name))
  | joint_info :: infos' =>
      if decide (linkName joint_info = link_name)
      then inr (jointIndex joint_info)
      else link_loop link_name infos'
  end.

Section SingleArmPyBulletRobot.

Variable X : External.

Definition home_joint_positions (r : Robot) : JointPositions :=
  _home_joint_positions r.

Definition joint_names (r : Robot) : list string :=
  map jointName (joint_infos (body r)).

Definition joint_from_name (r : Robot) (joint_name : string) : exn + Z :=
  match py_index joint_name (joint_names r) with
  | Some i => inr (Z.of_nat i)
  | None => inl (ValueError (NameNotInList joint_name))
  end.

Definition end_effector_id (r : Robot) : exn + Z :=
  joint_from_name r (end_effector_name (cls r)).

Definition left_finger_id (r : Robot) : exn + Z :=
  joint_from_name r (left_finger_joint_name (cls r)).

Definition right_finger_id (r : Robot) : exn + Z :=
  joint_from_name r (right_finger_joint_name (cls r)).

Definition arm_joints (r : Robot) : exn + list Z :=
  ee <~ end_effector_id r ;;
  joint_ids <~ get_kinematic_chain X (joint_infos (body r)) ee ;;
  let joint_ids := sorted joint_ids in
  l <~ left_finger_id r ;;
  rf <~ right_finger_id r ;;
  inr (joint_ids ++ [l; rf]).

Definition link_from_name (r : Robot) (link_name : string) : exn + Z :=
  if decide (link_name = base_link_name (body r)) then inr BASE_LINK
  else link_loop link_name (joint_infos (body r)).

Definition tool_link_id (r : Robot) : exn + Z :=
  link_from_name r (tool_link_name (cls r)).

Definition index_in_arm_joints (r : Robot) (finger : exn + Z) : exn + nat :=
  js <~ arm_joints r ;;
  f <~ finger ;;
  match py_index f js with
  | Some i => inr i
  | None => inl (ValueError (IdNotInList f))
  end.

Definition left_finger_joint_idx (r : Robot) : exn + nat :=
  index_in_arm_joints r (left_finger_id r).

Definition right_finger_joint_idx (r : Robot) : exn + nat :=
  index_in_arm_joints r (right_finger_id r).

Definition get_joints (r : Robot) (e : Engine) : exn + JointPositions :=
  js <~ arm_joints r ;;
  get_joint_positions js e.

Definition set_joints (r : Robot) (joint_positions : JointPositions) : M unit :=
  js <- lift (arm_joints r) ;;
  py_assert (Nat.eqb (length joint_positions) (length js)) ;;;
  reset_each (zip js joint_positions).

Definition get_end_effector_pose (r : Robot) : M Pose :=
  ee <- lift (end_effector_id r) ;;
  ee_link_state <- query (fun e => inr (get_link_state X ee e)) ;;
  ret (mkPose (worldLinkFramePosition ee_link_state)
              (worldLinkFrameOrientation ee_link_state)).

Definition get_finger_state (r : Robot) : M Q :=
  l <- lift (left_finger_id r) ;;
  s <- query (getJointState l) ;;
  ret (jointPosition s).

Definition set_motors (r : Robot) (joint_positions : JointPositions) : M unit :=
  js <- lift (arm_joints r) ;;
  py_assert (Nat.eqb (length joint_positions) (length js)) ;;;
  if decide (_control_mode r = "position"%string) then
    setJointMotorControlArray js joint_positions
  else if decide (_control_mode r = "reset"%string) then
    set_joints r joint_positions
  else
    raise (NotImplementedError (_control_mode r)).

Definition go_home (r : Robot) : M unit :=
  set_motors r (default_home_joint_positions (cls r)).

Definition forward_kinematics (r : Robot) (joint_positions : JointPositions)
  : M Pose :=
  set_joints r joint_positions ;;;
  ee <- lift (end_effector_id r) ;;
  ee_link_state <- query (fun e => inr (get_link_state X ee e)) ;;
  ret (mkPose (worldLinkFramePosition ee_link_state)
              (worldLinkFrameOrientation ee_link_state)).

Definition _validate_joints_state (r : Robot) (joint_positions : JointPositions)
    (target_pose : Pose) (validation_atol : Q) : M unit :=
  initial_joint_states <- query (get_joints r) ;;
  set_joints r joint_positions ;;;
  ee <- lift (end_effector_id r) ;;
  ee_link_state <- query (fun e => inr (get_link_state X ee e)) ;;
  let ee_pos := worldLinkFramePosition ee_link_state in
  let target_pos := position target_pose in
  let pos_is_close := allclose ee_pos target_pos validation_atol in
  set_joints r initial_joint_states ;;;
  if negb pos_is_close
  then raise (ValueError (JointStatesDoNotMatch target_pos ee_pos))
  else ret tt.

(** Lines 399-405: the two finger values are inserted at the sorted slots. *)
Definition add_fingers (left_idx right_idx : nat) (finger : Q)
    (joint_positions : JointPositions) : JointPositions :=
  let first_finger_idx := Nat.min left_idx right_idx in
  let second_finger_idx := Nat.max left_idx right_idx in
  py_insert second_finger_idx finger
    (py_insert first_finger_idx finger joint_positions).

Definition _ikfast_inverse_kinematics (r : Robot) (end_effector_pose : Pose)
  : M JointPositions :=
  ik_solutions <- query (fun e =>
      inr (ikfast_closest_inverse_kinematics X r end_effector_pose e)) ;;
  match ik_solutions with
  | [] => raise (InverseKinematicsError (NoIKSolutionFound end_effector_pose))
  | joint_positions :: _ =>
      li <- lift (left_finger_joint_idx r) ;;
      ri <- lift (right_finger_joint_idx r) ;;
      ret (add_fingers li ri (open_fingers (cls r)) joint_positions)
  end.

Definition inverse_kinematics (r : Robot) (end_effector_pose : Pose)
    (validate set_joints_flag : bool) (validation_atol : Q) : M JointPositions :=
  joint_positions <-
    match ikfast_info (cls r) with
    | Some _ =>
        joint_positions <- _ikfast_inverse_kinematics r end_effector_pose ;;
        (if validate then
           except_ValueError
             (_validate_joints_state r joint_positions end_effector_pose
                validation_atol)
             (fun a => InverseKinematicsError (FromValueError a))
         else ret tt) ;;;
        ret joint_positions
    | None =>
        ee <- lift (end_effector_id r) ;;
        js <- lift (arm_joints r) ;;
        pybullet_inverse_kinematics X ee (position end_effector_pose)
          (orientation end_effector_pose) js validate
    end ;;
  (if set_joints_flag then set_joints r joint_positions else ret tt) ;;;
  ret joint_positions.

(** [__init__]: [home_joint_positions or self.default_home_joint_positions]
    keeps a non-empty list and replaces [None] and the empty list. *)
Definition __init__ (c : RobotClass) (base_pose : Pose) (control_mode : string)
    (home : option JointPositions) : M Robot :=
  let home' :=
    match home with
    | Some (x :: l) => x :: l
    | _ => default_home_joint_positions c
    end in
  b <- loadURDF X (urdf_path c) base_pose ;;
  let r := mkRobot c base_pose control_mode home' b in
  set_joints r (home_joint_positions r) ;;;
  ret r.

End SingleArmPyBulletRobot.

(* ===================================================================== *)
(** ** Joint writes and reads *)

(** The joint map after the writes of [reset_each], when none fails. *)
Definition writes (ws : list (Z * Q)) (m : gmap Z JointState) : gmap Z JointState :=
  foldl (fun m w => <[w.1 := mkJointState w.2 0]> m) m ws.

Definition position_of (m : gmap Z JointState) (j : Z) : Q :=
  match m !! j with Some s => jointPosition s | None => 0%Q end.

Definition present (m : gmap Z JointState) (js : list Z) : Prop :=
  Forall (fun j => is_Some (m !! j)) js.

(* ===================================================================== *)
(** ** Concrete robots

    Small bodies on which the operations are run: a one-axis slider with a
    two-finger gripper, the same body with the tool frame mounted on the
    left finger, and the thirteen-joint body of the chain
    [2,4,6,9,10] + [11,12]. *)

(** Modelled from the spec: [get_kinematic_chain] of
    [pybullet_helpers.joint], which is not among the sources: traverse the
    joint graph from the end-effector joint toward the base by following
    parent-link to owning-joint edges until reaching the base link
    sentinel, collecting the visited joint indices; fail with
    [ChainBuildError] if the traversal cannot reach the base.  In PyBullet
    the link owned by a joint carries the joint's index. *)
Fixpoint chain_to_base (fuel : nat) (infos : list JointInfo) (joint : Z)
  : exn + list Z :=
  if decide (joint = BASE_LINK) then inr [] else
  match fuel with
  | O => inl ChainBuildError
  | S fuel' =>
      match find (fun ji => bool_decide (jointIndex ji = joint)) infos with
      | None => inl ChainBuildError
      | Some ji =>
          rest <~ chain_to_base fuel' infos (parentIndex ji) ;;
          inr (joint :: rest)
      end
  end.

Definition traverse_to_base (infos : list JointInfo) (end_effector : Z)
  : exn + list Z :=
  chain_to_base (length infos) infos end_effector.

(** A fresh body: every joint at position and velocity zero. *)
Definition fresh_joints (b : Body) : gmap Z JointState :=
  list_to_map (map (fun ji => (jointIndex ji, mkJointState 0 0)) (joint_infos b)).

(** The end effector of the demo bodies rides on joint 0, along x. *)
Definition slider_link_state (link : Z) (e : Engine) : LinkState :=
  mkLinkState (position_of (joints e) 0, 0%Q, 0%Q) (0%Q, 0%Q, 0%Q, 1%Q).

(** Collaborators for a body [b] and an analytic solver answering
    [solutions] whatever the target. *)
Definition demo_external (b : Body) (solutions : list JointPositions) : External :=
  mkExternal
    (fun _ _ e => (inr b, mkEngine (fresh_joints b) (commands e)))
    traverse_to_base
    slider_link_state
    (fun _ _ _ => solutions)
    (fun _ _ _ js _ => ret (map (fun _ => 0%Q) js)).

Definition slider_body : Body :=
  mkBody "rail"
    [ mkJointInfo 0 "slide_joint" "carriage" (-1);
      mkJointInfo 1 "left_finger_joint" "left_finger" 0;
      mkJointInfo 2 "right_finger_joint" "right_finger" 0;
      mkJointInfo 3 "tool_joint" "tool_link" 0 ].

(** The tool frame hangs off the left finger link. *)
Definition hooked_body : Body :=
  mkBody "rail"
    [ mkJointInfo 0 "slide_joint" "carriage" (-1);
      mkJointInfo 1 "left_finger_joint" "left_finger" 0;
      mkJointInfo 2 "right_finger_joint" "right_finger" 0;
      mkJointInfo 3 "tool_joint" "tool_link" 1 ].

Definition thirteen_body : Body :=
  mkBody "pedestal"
    [ mkJointInfo 0 "mount0" "plate0" (-1);
      mkJointInfo 1 "mount1" "plate1" 0;
      mkJointInfo 2 "arm1" "link1" (-1);
      mkJointInfo 3 "mount3" "plate3" 2;
      mkJointInfo 4 "arm2" "link2" 2;
      mkJointInfo 5 "mount5" "plate5" 4;
      mkJointInfo 6 "arm3" "link3" 4;
      mkJointInfo 7 "mount7" "plate7" 6;
      mkJointInfo 8 "mount8" "plate8" 6;
      mkJointInfo 9 "arm4" "link4" 6;
      mkJointInfo 10 "arm5" "link5" 9;
      mkJointInfo 11 "left_finger_joint" "left_finger" 10;
      mkJointInfo 12 "right_finger_joint" "right_finger" 10 ].

Definition slider_class : RobotClass :=
  mkRobotClass "slider" "slider.urdf" [0; 0; 0.04; 0.04]%Q
    "tool_joint" "tool_link" "left_finger_joint" "right_finger_joint"
    0.04%Q 0%Q
    (Some (mkIKFastInfo "slider" "ikfast_slider" "rail" "carriage" [])).

Definition five_axis_class : RobotClass :=
  mkRobotClass "five_axis" "five_axis.urdf" [0; 0; 0; 0; 0; 0.04; 0.04]%Q
    "arm5" "link5" "left_finger_joint" "right_finger_joint"
    0.04%Q 0%Q
    (Some (mkIKFastInfo "five_axis" "ikfast_five_axis" "pedestal" "link5" [])).

Definition identity_pose : Pose := mkPose (0, 0, 0)%Q (0, 0, 0, 1)%Q.

Definition pose_at (x : Q) : Pose := mkPose (x, 0, 0)%Q (0, 0, 0, 1)%Q.

Definition slider (control_mode : string) (home : JointPositions) : Robot :=
  mkRobot slider_class identity_pose control_mode home slider_body.

Definition hooked (home : JointPositions) : Robot :=
  mkRobot slider_class identity_pose "reset" home hooked_body.

Definition five_axis : Robot :=
  mkRobot five_axis_class identity_pose "position"
    (default_home_joint_positions five_axis_class) thirteen_body.

Definition slider_home : JointPositions := [0; 0; 0.04; 0.04]%Q.

(** The slider with a solver that finds nothing, one that answers 5 and
    one that answers 1.001005, whatever the target. *)
Definition world_none : External := demo_external slider_body [].
Definition world_far : External := demo_external slider_body [[5; 0]%Q].
Definition world_near : External := demo_external slider_body [[1.001005; 0]%Q].

Definition world_hooked : External := demo_external hooked_body [].

Definition world_five : External :=
  demo_external thirteen_body [[0.1; 0.2; 0.3; 0.4; 0.5]%Q].

(** The closeness test as the specification words it: every axis within
    the tolerance. *)
Definition within_tolerance (a b : Pose3D) (tol : Q) : bool :=
  let '(ax, ay, az) := a in
  let '(bx, by_, bz) := b in
  Qle_bool (Qabs (ax - bx)) tol
  && Qle_bool (Qabs (ay - by_)) tol
  && Qle_bool (Qabs (az - bz)) tol.

Definition empty_engine : Engine := mkEngine ∅ [].

Definition slider_engine : Engine := mkEngine (fresh_joints slider_body) [].

(* ===================================================================== *)
(** ** Joint records by name *)

(** The exceptions of a method that also subscripts a list: those of
    [exn], and Python's [IndexError]. *)
Inductive subscript_exn :=
| Raised (x : exn)
| IndexError (index : Z).

(** [l[i]]: a negative index counts from the end. *)
Definition py_getitem {A} (l : list A) (i : Z) : option A :=
  if (i <? 0)%Z then
    if (i + Z.of_nat (length l) <? 0)%Z then None
    else l !! Z.to_nat (i + Z.of_nat (length l))
  else l !! Z.to_nat i.

Definition joint_info_from_name (r : Robot) (joint_name : string)
  : subscript_exn + JointInfo :=
  match joint_from_name r joint_name with
  | inl x => inl (Raised x)
  | inr i =>
      match py_getitem (joint_infos (body r)) i with
      | Some joint_info => inr joint_info
      | None => inl (IndexError i)
      end
  end.

(** The engine lists the joints of a body by index: the record at
    position [i] carries [jointIndex = i]. *)
Definition numbered_in_order (infos : list JointInfo) : Prop :=
  map jointIndex infos = map Z.of_nat (seq 0 (length infos)).

(** The slider without IKFast info, and the slider whose class names an
    end-effector joint the body does not have. *)
Definition plain_class : RobotClass :=
  mkRobotClass "plain" "slider.urdf" [0; 0; 0.04; 0.04]%Q
    "tool_joint" "tool_link" "left_finger_joint" "right_finger_joint"
    0.04%Q 0%Q None.

Definition misnamed_class : RobotClass :=
  mkRobotClass "misnamed" "slider.urdf" [0; 0; 0.04; 0.04]%Q
    "wrist_joint" "tool_link" "left_finger_joint" "right_finger_joint"
    0.04%Q 0%Q None.

Definition plain (control_mode : string) : Robot :=
  mkRobot plain_class identity_pose control_mode
    (default_home_joint_positions plain_class) slider_body.

Definition misnamed : Robot :=
  mkRobot misnamed_class identity_pose "reset"
    (default_home_joint_positions misnamed_class) slider_body.

(** The slider engine after the carriage was moved to 0.7. *)
Definition moved_engine : Engine :=
  mkEngine (<[0 := mkJointState 0.7 0.2]> (fresh_joints slider_body)) [].

(** The thirteen-joint body in motion: joint 0 (off the chain) and joint
    2 (on it) have a position and a velocity. *)
Definition busy_engine : Engine :=
  mkEngine
    (<[2 := mkJointState 0.3 0.9]>
       (<[0 := mkJointState 0.5 0.6]> (fresh_joints thirteen_body)))
    [mkMotorCommand [2] [0.3]%Q].

Lemma writes_cons w ws m :
  writes (w :: ws) m = writes ws (<[w.1 := mkJointState w.2 0]> m).
Proof. reflexivity. Qed.

Lemma writes_lookup_other ws m k :
  k ∉ ws.*1 -> writes ws m !! k = m !! k.
Proof.
  revert m. induction ws as [|[j x] ws IH]; intros m Hk; [done|].
  cbn in Hk. apply not_elem_of_cons in Hk as [Hkj Hk].
  rewrite writes_cons, IH by done. by rewrite lookup_insert_ne.
Qed.

Lemma writes_is_Some ws m k :
  is_Some (m !! k) -> is_Some (writes ws m !! k).
Proof.
  revert m. induction ws as [|[j x] ws IH]; intros m Hk; [done|].
  rewrite writes_cons. apply IH. cbn. destruct (decide (j = k)) as [->|].
  - rewrite lookup_insert_eq. by eexists.
  - by rewrite lookup_insert_ne.
Qed.

Lemma writes_present ws m js : present m js -> present (writes ws m) js.
Proof.
  intros H. eapply Forall_impl; [exact H|].
  intros j. apply writes_is_Some.
Qed.

(** Writing the same list over two maps that agree elsewhere gives the
    same map. *)
Lemma writes_absorb ws m m' :
  (forall k, k ∉ ws.*1 -> m !! k = m' !! k) ->
  writes ws m = writes ws m'.
Proof.
  revert m m'. induction ws as [|[j x] ws IH]; intros m m' H.
  - apply map_eq. intros k. apply H. cbn. apply not_elem_of_nil.
  - rewrite !writes_cons. apply IH. intros k Hk. cbn [fst snd].
    destruct (decide (j = k)) as [->|Hjk].
    + by rewrite !lookup_insert_eq.
    + rewrite !lookup_insert_ne by done. apply H. cbn.
      apply not_elem_of_cons. split; [congruence|done].
Qed.

(** Writing back a value that is a function of the joint index. *)
Lemma writes_by_key (f : Z -> Q) js m k :
  k ∈ js ->
  writes (zip js (map f js)) m !! k = Some (mkJointState (f k) 0).
Proof.
  revert m. induction js as [|j js IH]; intros m Hk.
  - by apply elem_of_nil in Hk.
  - change (zip (j :: js) (map f (j :: js))) with ((j, f j) :: zip js (map f js)).
    rewrite writes_cons. cbn [fst snd].
    destruct (decide (k ∈ js)) as [Hin|Hnin].
    + by apply IH.
    + apply elem_of_cons in Hk as [->|]; [|done].
      rewrite writes_lookup_other.
      * by rewrite lookup_insert_eq.
      * intros Hc. apply Hnin.
        apply list_elem_of_fmap in Hc as [[a b] [-> Hab]].
        cbn. by apply elem_of_zip_l in Hab.
Qed.

Lemma fst_zip_subseteq (js : list Z) (v : list Q) k :
  k ∈ (zip js v).*1 -> k ∈ js.
Proof.
  intros Hc. apply list_elem_of_fmap in Hc as [[a b] [-> Hab]].
  cbn. by apply elem_of_zip_l in Hab.
Qed.

Lemma reset_each_ok ws e :
  present (joints e) ws.*1 ->
  reset_each ws e = (inr tt, mkEngine (writes ws (joints e)) (commands e)).
Proof.
  revert e. induction ws as [|[j x] ws IH]; intros [m c] H.
  - done.
  - cbn in H. apply Forall_cons in H as [[s Hs] H].
    cbn [reset_each]. unfold bind, resetJointState. cbn in *. rewrite Hs.
    rewrite IH; [done|]. cbn.
    eapply Forall_impl; [exact H|]. cbn. intros k Hk.
    destruct (decide (j = k)) as [->|].
    + rewrite lookup_insert_eq. by eexists.
    + by rewrite lookup_insert_ne.
Qed.

Lemma present_zip (m : gmap Z JointState) (js : list Z) (v : list Q) :
  present m js -> present m (zip js v).*1.
Proof.
  intros H. apply Forall_forall. intros k Hk.
  apply fst_zip_subseteq in Hk.
  by eapply Forall_forall in H.
Qed.

Lemma get_joint_positions_inr js e l :
  get_joint_positions js e = inr l ->
  present (joints e) js /\ l = map (position_of (joints e)) js.
Proof.
  revert l. induction js as [|j js IH]; intros l H; cbn in H.
  - inversion H. split; [constructor|done].
  - unfold getJointState, position_of in *.
    destruct (joints e !! j) as [s|] eqn:Hj; cbn in H; [|done].
    destruct (get_joint_positions js e) as [|rest]; cbn in H; [done|].
    inversion H; subst. destruct (IH rest eq_refl) as [Hp ->].
    split.
    + constructor; [by eexists|done].
    + cbn. by rewrite Hj.
Qed.

Lemma get_joint_positions_present js e :
  present (joints e) js ->
  get_joint_positions js e = inr (map (position_of (joints e)) js).
Proof.
  induction 1 as [|j js [s Hs] _ IH]; [done|].
  cbn. unfold getJointState, position_of at 1. rewrite Hs. cbn.
  by rewrite IH.
Qed.

(** A read is decided by the positions of the joints it reads. *)
Lemma get_joint_positions_ext js e e' :
  (forall j, j ∈ js -> joints e !! j = joints e' !! j) ->
  get_joint_positions js e = get_joint_positions js e'.
Proof.
  induction js as [|j js IH]; intros H; [done|].
  cbn. unfold getJointState. rewrite H by left.
  rewrite IH; [done|]. intros k Hk. apply H. by right.
Qed.

(* ===================================================================== *)
(** ** Python list primitives: facts *)

Section PyList.

Context {A : Type}.

Lemma py_insert_length i (x : A) l : length (py_insert i x l) = S (length l).
Proof.
  unfold py_insert. rewrite length_app. cbn.
  rewrite length_take, length_drop. lia.
Qed.

Lemma py_insert_lookup i (x : A) l :
  (i <= length l)%nat -> py_insert i x l !! i = Some x.
Proof.
  intros Hi. unfold py_insert. apply list_lookup_middle.
  by rewrite length_take_le.
Qed.

Lemma py_insert_lookup_lt i j (x : A) l :
  (j < i)%nat -> (j < length l)%nat -> py_insert i x l !! j = l !! j.
Proof.
  intros Hji Hj. unfold py_insert.
  rewrite lookup_app_l by (rewrite length_take; lia).
  by rewrite lookup_take_lt.
Qed.

Lemma py_insert_delete i (x : A) l :
  (i <= length l)%nat -> delete i (py_insert i x l) = l.
Proof.
  intros Hi. unfold py_insert.
  rewrite <- (length_take_le l i Hi) at 1.
  rewrite delete_middle. apply take_drop.
Qed.

Lemma filter_Forall (P : A -> Prop) `{forall x, Decision (P x)} (l : list A) :
  Forall P l -> filter P l = l.
Proof.
  induction 1 as [|x l Hx _ IH]; [done|].
  rewrite filter_cons_True by done. by rewrite IH.
Qed.

(** Past the end, [insert] is [append]. *)
Lemma py_insert_past_end i (x : A) l :
  (length l <= i)%nat -> py_insert i x l = l ++ [x].
Proof.
  intros Hi. unfold py_insert. by rewrite take_ge, drop_ge.
Qed.

Context `{EqDecision A}.

Lemma py_index_Some (x : A) l i :
  py_index x l = Some i -> (i < length l)%nat /\ l !! i = Some x.
Proof.
  revert i. induction l as [|y l IH]; intros i H; cbn in H; [done|].
  destruct (decide (y = x)) as [->|].
  - inversion H. cbn. split; [lia|done].
  - destruct (py_index x l) as [k|]; cbn in H; [|done].
    inversion H. destruct (IH k eq_refl). cbn. split; [lia|done].
Qed.

Lemma py_index_elem_of (x : A) l :
  x ∈ l -> is_Some (py_index x l).
Proof.
  induction l as [|y l IH]; intros Hin; [by apply elem_of_nil in Hin|].
  cbn. destruct (decide (y = x)); [by eexists|].
  apply elem_of_cons in Hin as [|Hin]; [congruence|].
  destruct (IH Hin) as [k ->]. by eexists.
Qed.

End PyList.

(* ===================================================================== *)
(** ** Properties of the robot operations *)

Section Properties.

Variable X : External.

Lemma arm_joints_inr r js :
  arm_joints X r = inr js ->
  exists ee chain l rf,
    end_effector_id r = inr ee /\
    get_kinematic_chain X (joint_infos (body r)) ee = inr chain /\
    left_finger_id r = inr l /\
    right_finger_id r = inr rf /\
    js = sorted chain ++ [l; rf].
Proof.
  unfold arm_joints, pbind. intros H.
  destruct (end_effector_id r) as [|ee] eqn:Hee; [done|].
  destruct (get_kinematic_chain X _ ee) as [|chain] eqn:Hch; [done|].
  destruct (left_finger_id r) as [|l] eqn:Hl; [done|].
  destruct (right_finger_id r) as [|rf] eqn:Hrf; [done|].
  inversion H. by exists ee, chain, l, rf.
Qed.

Lemma set_joints_ok r js v e :
  arm_joints X r = inr js ->
  length v = length js ->
  present (joints e) js ->
  set_joints X r v e =
    (inr tt, mkEngine (writes (zip js v) (joints e)) (commands e)).
Proof.
  intros Hjs Hlen Hp. unfold set_joints, bind, lift. rewrite Hjs.
  rewrite Hlen, Nat.eqb_refl. cbn.
  apply reset_each_ok. by apply present_zip.
Qed.

Lemma set_joints_mismatch r js v e :
  arm_joints X r = inr js ->
  length v <> length js ->
  set_joints X r v e = (inl AssertionError, e).
Proof.
  intros Hjs Hlen. unfold set_joints, bind, lift. rewrite Hjs.
  apply Nat.eqb_neq in Hlen. by rewrite Hlen.
Qed.

Lemma set_joints_no_chain r x v e :
  arm_joints X r = inl x -> set_joints X r v e = (inl x, e).
Proof. intros Hjs. unfold set_joints, bind, lift. by rewrite Hjs. Qed.

(** [set_joints] never touches the motor commands, and keeps every joint
    of the body in place. *)
Lemma set_joints_commands r v e :
  commands (set_joints X r v e).2 = commands e.
Proof.
  unfold set_joints, bind, lift.
  destruct (arm_joints X r) as [|js]; [done|].
  destruct (Nat.eqb _ _); [|done]. cbn.
  generalize (zip js v). intros ws. revert e.
  induction ws as [|[j x] ws IH]; intros e; [done|].
  cbn [reset_each]. unfold bind, resetJointState.
  destruct (joints e !! j); [|done].
  by rewrite IH.
Qed.

Lemma reset_each_not_assertion ws e :
  (reset_each ws e).1 <> inl AssertionError.
Proof.
  revert e. induction ws as [|[j x] ws IH]; intros e; [done|].
  cbn [reset_each]. unfold bind, resetJointState.
  destruct (joints e !! j); [apply IH|done].
Qed.

Lemma ikfast_leaves_engine r pose e :
  (_ikfast_inverse_kinematics X r pose e).2 = e.
Proof.
  unfold _ikfast_inverse_kinematics, bind, query, lift, raise, ret. cbn.
  destruct (ikfast_closest_inverse_kinematics X r pose e); [done|].
  destruct (left_finger_joint_idx X r); [done|].
  by destruct (right_finger_joint_idx X r).
Qed.

(** The joints read back after [set_joints] wrote a saved reading are the
    saved reading. *)
Lemma restore_reads_back r js v e :
  arm_joints X r = inr js ->
  length v = length js ->
  present (joints e) js ->
  let initial := map (position_of (joints e)) js in
  let e1 := (set_joints X r v e).2 in
  set_joints X r initial e1 =
    (inr tt, mkEngine (writes (zip js initial) (joints e1)) (commands e)) /\
  get_joints X r (set_joints X r initial e1).2 = inr initial.
Proof.
  intros Hjs Hlen Hp initial e1.
  assert (He1 : e1 = mkEngine (writes (zip js v) (joints e)) (commands e)).
  { unfold e1. by rewrite (set_joints_ok r js v e). }
  assert (Hp1 : present (joints e1) js).
  { rewrite He1. cbn. by apply writes_present. }
  assert (Hli : length initial = length js) by apply length_map.
  assert (Hset := set_joints_ok r js initial e1 Hjs Hli Hp1).
  split.
  - rewrite Hset. by rewrite He1.
  - rewrite Hset. cbn. unfold get_joints, pbind. rewrite Hjs.
    rewrite get_joint_positions_present by (cbn; by apply writes_present).
    f_equal. cbn. apply map_ext_in. intros k Hk.
    apply list_elem_of_In in Hk.
    unfold position_of at 1.
    by rewrite (writes_by_key (position_of (joints e)) js _ k Hk).
Qed.

(** [_validate_joints_state] gives back an engine on which [get_joints]
    answers as before, whatever the outcome. *)
Lemma validate_restores r v pose atol e :
  get_joints X r (_validate_joints_state X r v pose atol e).2 = get_joints X r e.
Proof.
  unfold _validate_joints_state. unfold bind at 1. unfold query at 1.
  destruct (get_joints X r e) as [x|initial] eqn:Hget; [exact Hget|].
  cbn [fst snd].
  pose proof Hget as Hget'. unfold get_joints, pbind in Hget'.
  destruct (arm_joints X r) as [|js] eqn:Hjs; [done|].
  apply get_joint_positions_inr in Hget' as [Hp ->].
  destruct (arm_joints_inr r js Hjs) as (ee & chain & l & rf & Hee & _).
  unfold bind at 1.
  destruct (decide (length v = length js)) as [Hlen|Hlen].
  - destruct (restore_reads_back r js v e Hjs Hlen Hp) as [Hset Hback].
    rewrite (set_joints_ok r js v e Hjs Hlen Hp) in *. cbn [snd] in *.
    unfold bind at 1, lift at 1. rewrite Hee.
    unfold bind at 1, query at 1.
    unfold bind at 1. rewrite Hset in *. cbn [snd] in *.
    by destruct (negb _).
  - by rewrite (set_joints_mismatch r js v e Hjs Hlen).
Qed.

Lemma except_ValueError_engine {A} (m : M A) h e :
  (except_ValueError m h e).2 = (m e).2.
Proof.
  unfold except_ValueError. destruct (m e) as [[x|a] e']; [|done].
  by destruct x.
Qed.

(** C1: on a robot with an analytic IK profile,
    [inverse_kinematics(pose, validate=True, set_joints=False)] hands back
    an engine on which [get_joints()] answers exactly as before the call,
    whether the call returned or raised (the engine component of the result
    is the state reached in both cases). *)
Theorem inverse_kinematics_validate_keeps_joints r pose atol e :
  ikfast_info (cls r) <> None ->
  get_joints X r (inverse_kinematics X r pose true false atol e).2
  = get_joints X r e.
Proof.
  intros Hik. unfold inverse_kinematics.
  destruct (ikfast_info (cls r)); [clear Hik|done].
  unfold bind, ret.
  pose proof (ikfast_leaves_engine r pose e) as Hpure.
  destruct (_ikfast_inverse_kinematics X r pose e) as [[x|v] e0];
    cbn in Hpure; subst e0; [reflexivity|].
  pose proof (except_ValueError_engine
                (_validate_joints_state X r v pose atol)
                (fun a => InverseKinematicsError (FromValueError a)) e) as Hexc.
  pose proof (validate_restores r v pose atol e) as Hval.
  destruct (except_ValueError _ _ e) as [[x|[]] e1]; cbn in Hexc; subst e1.
  - exact Hval.
  - exact Hval.
Qed.

(** C3 (as amended): on the analytic path, when the solver returns no
    candidate, the call raises [InverseKinematicsError] (the class also
    raised on a validation mismatch, built from the "no solution" message)
    and the engine is the one the call started from. *)
Theorem no_solution_raises_inverse_kinematics_error r pose validate sj atol e :
  ikfast_info (cls r) <> None ->
  ikfast_closest_inverse_kinematics X r pose e = [] ->
  inverse_kinematics X r pose validate sj atol e
  = (inl (InverseKinematicsError (NoIKSolutionFound pose)), e).
Proof.
  intros Hik Hnone. unfold inverse_kinematics.
  destruct (ikfast_info (cls r)); [clear Hik|done].
  unfold _ikfast_inverse_kinematics, bind, query. by rewrite Hnone.
Qed.

(** C7: [set_joints] checks [len(joint_positions) == len(arm_joints)]
    first: when the lengths differ it raises the assertion failure with the
    engine untouched, and when they agree it never raises it. *)
Theorem set_joints_length_precondition r js v e :
  arm_joints X r = inr js ->
  (length v <> length js -> set_joints X r v e = (inl AssertionError, e)) /\
  (length v = length js -> (set_joints X r v e).1 <> inl AssertionError).
Proof.
  intros Hjs. split; intros Hlen.
  - by apply set_joints_mismatch with js.
  - unfold set_joints, bind, lift. rewrite Hjs, Hlen, Nat.eqb_refl. cbn.
    apply reset_each_not_assertion.
Qed.

(** C8: for a vector of chain length, [set_motors] in "reset" mode is
    [set_joints] (same result, same engine), and under a control mode that
    is neither "position" nor "reset" it raises [NotImplementedError] on an
    unchanged engine: no joint written, no motor command issued. *)
Theorem set_motors_reset_and_unsupported r js v e :
  arm_joints X r = inr js ->
  length v = length js ->
  (_control_mode r = "reset"%string ->
     set_motors X r v e = set_joints X r v e) /\
  (_control_mode r <> "position"%string ->
   _control_mode r <> "reset"%string ->
     set_motors X r v e = (inl (NotImplementedError (_control_mode r)), e)).
Proof.
  intros Hjs Hlen. unfold set_motors, bind, lift.
  rewrite Hjs, Hlen, Nat.eqb_refl. cbn. split.
  - intros Hmode. rewrite Hmode. by cbn.
  - intros Hp Hr.
    destruct (decide (_control_mode r = "position"%string)); [done|].
    by destruct (decide (_control_mode r = "reset"%string)).
Qed.

(** [go_home] sends the class default, whatever home vector the instance
    holds. *)
Lemma go_home_unfold r :
  go_home X r = set_motors X r (default_home_joint_positions (cls r)).
Proof. reflexivity. Qed.

Lemma finger_idx_inr r js f (fid : exn + Z) :
  arm_joints X r = inr js -> fid = inr f -> f ∈ js ->
  exists i, index_in_arm_joints X r fid = inr i /\ py_index f js = Some i.
Proof.
  intros Hjs -> Hin. unfold index_in_arm_joints, pbind. rewrite Hjs.
  destruct (py_index_elem_of f js Hin) as [i Hi]. rewrite Hi. by exists i.
Qed.

Lemma finger_idx_bound r js (fid : exn + Z) i :
  arm_joints X r = inr js -> index_in_arm_joints X r fid = inr i ->
  (i < length js)%nat.
Proof.
  intros Hjs. unfold index_in_arm_joints, pbind. rewrite Hjs.
  destruct fid as [|f]; [done|].
  destruct (py_index f js) as [k|] eqn:Hk; [|done].
  intros [= <-]. by apply py_index_Some in Hk as [? _].
Qed.

(** C5: with the left finger slot below the right one and an arm-only
    solution two entries shorter than the chain,
    [_ikfast_inverse_kinematics] returns a vector of chain length that
    holds the open-finger value at both slots and, once the two slots are
    removed, is the solver's solution entry for entry; on the slots 5 and
    6 of the chain [2,4,6,9,10] + [11,12], the solution
    [0.1,0.2,0.3,0.4,0.5] with open value 0.04 becomes
    [0.1,0.2,0.3,0.4,0.5,0.04,0.04]. *)
Theorem finger_slot_insertion r js li ri sol others pose e :
  arm_joints X r = inr js ->
  left_finger_joint_idx X r = inr li ->
  right_finger_joint_idx X r = inr ri ->
  (li < ri)%nat ->
  ikfast_closest_inverse_kinematics X r pose e = sol :: others ->
  length sol = (length js - 2)%nat ->
  (exists v,
     _ikfast_inverse_kinematics X r pose e = (inr v, e) /\
     length v = length js /\
     v !! li = Some (open_fingers (cls r)) /\
     v !! ri = Some (open_fingers (cls r)) /\
     delete li (delete ri v) = sol) /\
  add_fingers 5 6 0.04%Q [0.1; 0.2; 0.3; 0.4; 0.5]%Q
  = [0.1; 0.2; 0.3; 0.4; 0.5; 0.04; 0.04]%Q.
Proof.
  intros Hjs Hli Hri Hlt Hsol Hlen. split; [|reflexivity].
  pose proof (finger_idx_bound r js _ ri Hjs Hri) as Hrb.
  exists (add_fingers li ri (open_fingers (cls r)) sol).
  unfold _ikfast_inverse_kinematics, bind, query, lift, ret.
  rewrite Hsol, Hli, Hri.
  unfold add_fingers. rewrite Nat.min_l, Nat.max_r by lia.
  set (x := open_fingers (cls r)).
  assert (Hl1 : length (py_insert li x sol) = S (length sol))
    by apply py_insert_length.
  repeat split.
  - rewrite py_insert_length, Hl1. lia.
  - rewrite py_insert_lookup_lt by lia. apply py_insert_lookup. lia.
  - apply py_insert_lookup. lia.
  - rewrite py_insert_delete by lia. apply py_insert_delete. lia.
Qed.

(** C6 (as amended): a chain that could be built is the sorted kinematic
    chain followed by the left and the right finger joint: its length is
    the chain's plus 2, the fingers sit in the last two positions, and the
    prefix is an ascending rearrangement of the kinematic chain whatever
    the finger indices are.  When neither finger joint lies on the
    kinematic chain, no finger index occurs in the prefix and the entries
    that are not finger indices number the length minus 2. *)
Theorem arm_joints_layout r js :
  arm_joints X r = inr js ->
  exists ee chain l rf,
    end_effector_id r = inr ee /\
    get_kinematic_chain X (joint_infos (body r)) ee = inr chain /\
    left_finger_id r = inr l /\
    right_finger_id r = inr rf /\
    let n := length chain in
    length js = (n + 2)%nat /\
    js !! n = Some l /\
    js !! S n = Some rf /\
    Sorted Z.le (take n js) /\
    take n js ≡ₚ chain /\
    ((l ∉ chain) -> (rf ∉ chain) ->
       (l ∉ take n js) /\ (rf ∉ take n js) /\
       length (filter (fun j => j <> l /\ j <> rf) js) = n).
Proof.
  intros Hjs.
  destruct (arm_joints_inr r js Hjs) as (ee & chain & l & rf & Hee & Hch & Hl & Hrf & ->).
  exists ee, chain, l, rf. repeat split; try done.
  all: assert (Hn : length (sorted chain) = length chain)
    by (unfold sorted; by rewrite merge_sort_Permutation).
  all: cbn zeta.
  - rewrite length_app, Hn. cbn. lia.
  - rewrite lookup_app_r by lia. by rewrite Hn, Nat.sub_diag.
  - rewrite lookup_app_r by lia.
    by replace (S (length chain) - length (sorted chain))%nat with 1%nat by lia.
  - rewrite take_app_length' by done.
    apply (Sorted_merge_sort Z.le).
  - rewrite take_app_length' by done. apply merge_sort_Permutation.
  - rewrite take_app_length' by done. unfold sorted.
    by rewrite merge_sort_Permutation.
  - rewrite take_app_length' by done. unfold sorted.
    by rewrite merge_sort_Permutation.
  - rename H into Hnl, H0 into Hnr.
    rewrite filter_app. rewrite length_app.
    assert (Htail : filter (fun j => j <> l /\ j <> rf) [l; rf] = []).
    { rewrite filter_cons_False by (intros [? _]; done).
      rewrite filter_cons_False by (intros [_ ?]; done). done. }
    rewrite Htail. cbn [length]. rewrite Nat.add_0_r, <- Hn. f_equal.
    apply filter_Forall.
    apply Forall_forall. intros j Hj. unfold sorted in Hj.
    rewrite merge_sort_Permutation in Hj. split; congruence.
Qed.

Lemma reset_each_inr ws e u e' :
  reset_each ws e = (inr u, e') ->
  present (joints e) ws.*1 /\
  e' = mkEngine (writes ws (joints e)) (commands e).
Proof.
  revert e. induction ws as [|[j x] ws IH]; intros e H.
  - cbn in H. inversion H. split; [apply Forall_nil_2|by destruct e'].
  - cbn [reset_each] in H. unfold bind, resetJointState in H.
    destruct (joints e !! j) as [s|] eqn:Hj; [|done].
    apply IH in H as [Hp ->]. cbn in *. split; [|done].
    constructor; [by eexists|].
    eapply Forall_impl; [exact Hp|]. cbn. intros k Hk.
    destruct (decide (j = k)) as [->|]; [by eexists|].
    by rewrite lookup_insert_ne in Hk.
Qed.

Lemma set_joints_inr r v e u e' :
  set_joints X r v e = (inr u, e') ->
  exists js,
    arm_joints X r = inr js /\
    length v = length js /\
    present (joints e) js /\
    e' = mkEngine (writes (zip js v) (joints e)) (commands e).
Proof.
  unfold set_joints, bind, lift. intros H.
  destruct (arm_joints X r) as [|js]; [done|].
  destruct (Nat.eqb (length v) (length js)) eqn:Hlen; [|done].
  apply Nat.eqb_eq in Hlen. cbn in H.
  apply reset_each_inr in H as [Hp ->].
  rewrite fst_zip in Hp by lia.
  by exists js.
Qed.

(** Without a repeated joint, what is written is what is read. *)
Lemma writes_zip_NoDup js (v : list Q) m :
  NoDup js -> length v = length js ->
  map (position_of (writes (zip js v) m)) js = v.
Proof.
  intros Hnd. revert v m.
  induction Hnd as [|j js Hj _ IH]; intros [|x v] m Hlen; try done.
  change (zip (j :: js) (x :: v)) with ((j, x) :: zip js v).
  rewrite writes_cons. cbn [fst snd map]. f_equal.
  - unfold position_of. rewrite writes_lookup_other.
    + by rewrite lookup_insert_eq.
    + intros Hc. by apply fst_zip_subseteq in Hc.
  - apply IH. cbn in Hlen. lia.
Qed.

(** C9 (as amended): when [__init__] succeeds, the instance's home vector
    is the caller's non-empty one or else the class default, and, the
    chain holding no joint index twice, [get_joints()] on the engine the
    constructor leaves returns exactly that home vector. *)
Theorem init_leaves_robot_at_home c base_pose mode home e r e' js :
  __init__ X c base_pose mode home e = (inr r, e') ->
  arm_joints X r = inr js ->
  NoDup js ->
  home_joint_positions r =
    match home with
    | Some (x :: l) => x :: l
    | _ => default_home_joint_positions c
    end /\
  get_joints X r e' = inr (home_joint_positions r).
Proof.
  intros Hinit Hjs Hnd. unfold __init__, bind in Hinit.
  destruct (loadURDF X (urdf_path c) base_pose e) as [[|b] e1]; [done|].
  match type of Hinit with
  | context [set_joints X ?r0 ?h e1] =>
      destruct (set_joints X r0 h e1) as [[|[]] e2] eqn:Hset; [done|]
  end.
  unfold ret in Hinit. inversion Hinit; subst r e'. clear Hinit.
  split; [reflexivity|].
  apply set_joints_inr in Hset as (js' & Hjs' & Hlen & Hp & ->).
  rewrite Hjs in Hjs'. inversion Hjs'; subst js'.
  unfold get_joints, pbind. rewrite Hjs.
  rewrite get_joint_positions_present by (cbn; by apply writes_present).
  cbn [joints]. f_equal. by apply writes_zip_NoDup.
Qed.

Lemma except_ValueError_inr {A} (m : M A) h e a e' :
  except_ValueError m h e = (inr a, e') -> m e = (inr a, e').
Proof.
  unfold except_ValueError. destruct (m e) as [[x|a'] e1]; [|done].
  by destruct x.
Qed.

(** What a successful validation did. *)
Lemma validate_inr r v pose atol e u e1 :
  _validate_joints_state X r v pose atol e = (inr u, e1) ->
  exists js ee,
    arm_joints X r = inr js /\
    end_effector_id r = inr ee /\
    present (joints e) js /\
    length v = length js /\
    allclose
      (worldLinkFramePosition
         (get_link_state X ee
            (mkEngine (writes (zip js v) (joints e)) (commands e))))
      (position pose) atol = true /\
    e1 = mkEngine
           (writes (zip js (map (position_of (joints e)) js))
                   (writes (zip js v) (joints e)))
           (commands e).
Proof.
  unfold _validate_joints_state. unfold bind at 1. unfold query at 1.
  destruct (get_joints X r e) as [x|initial] eqn:Hget; [done|].
  unfold get_joints, pbind in Hget.
  destruct (arm_joints X r) as [|js] eqn:Hjs; [done|].
  apply get_joint_positions_inr in Hget as [Hp ->].
  destruct (arm_joints_inr r js Hjs) as (ee & chain & l & rf & Hee & _).
  unfold bind at 1.
  destruct (decide (length v = length js)) as [Hlen|Hlen].
  - destruct (restore_reads_back r js v e Hjs Hlen Hp) as [Hset _].
    rewrite (set_joints_ok r js v e Hjs Hlen Hp) in *. cbn [snd] in *.
    unfold bind at 1, lift at 1. rewrite Hee.
    unfold bind at 1, query at 1.
    unfold bind at 1. rewrite Hset. cbn [joints].
    destruct (allclose _ _ _) eqn:Hclose; cbn; [|done].
    intros [= <- <-]. by exists js, ee.
  - by rewrite (set_joints_mismatch r js v e Hjs Hlen).
Qed.

(** Writing [v] again after the restore gives the engine on which the
    validation looked at the end effector. *)
Lemma rewrite_after_restore js (v initial : list Q) m :
  length v = length js ->
  writes (zip js v) (writes (zip js v) (writes (zip js initial) (writes (zip js v) m)))
  = writes (zip js v) m.
Proof.
  intros Hlen. apply writes_absorb. intros k Hk.
  rewrite fst_zip in Hk by lia.
  rewrite !writes_lookup_other; try done.
  all: intros Hc; by apply fst_zip_subseteq in Hc.
Qed.

(** On a built chain whose joints the engine knows, validating a vector
    of chain length either passes or raises the mismatch [ValueError];
    the chain joints stay known. *)
Lemma validate_outcome r js v pose atol e :
  arm_joints X r = inr js ->
  present (joints e) js ->
  length v = length js ->
  exists e1,
    present (joints e1) js /\
    (_validate_joints_state X r v pose atol e = (inr tt, e1) \/
     exists a, _validate_joints_state X r v pose atol e = (inl (ValueError a), e1)).
Proof.
  intros Hjs Hp Hlen.
  destruct (arm_joints_inr r js Hjs) as (ee & chain & l & rf & Hee & _).
  destruct (restore_reads_back r js v e Hjs Hlen Hp) as [Hset _].
  assert (Hget : get_joints X r e = inr (map (position_of (joints e)) js)).
  { unfold get_joints, pbind. rewrite Hjs.
    by apply get_joint_positions_present. }
  unfold _validate_joints_state, bind, query, lift, raise, ret.
  rewrite Hget. cbv beta iota.
  rewrite (set_joints_ok r js v e Hjs Hlen Hp) in *. cbn [snd] in Hset.
  rewrite Hee. cbv beta iota. rewrite Hset.
  eexists. split; [|destruct (negb _); [right; eexists|left]; reflexivity].
  cbn. by do 2 apply writes_present.
Qed.

Lemma add_fingers_length li ri x (sol : list Q) :
  length (add_fingers li ri x sol) = S (S (length sol)).
Proof. unfold add_fingers. by rewrite !py_insert_length. Qed.

(** C2 (as amended): on a robot with an analytic IK profile,
    [inverse_kinematics(pose, validate=True, set_joints=True)] either
    raises, or returns a vector [v] for which [forward_kinematics(v)] gives
    a position that passes [numpy.allclose] against the target position
    with [atol = validation_atol] and numpy's default relative term: on
    each axis the distance is at most
    [validation_atol + 1e-5 * |target|].  The target orientation takes no
    part: validation runs the same whatever it is.  When the chain is
    built, its joints exist in the engine and the solver's
    first solution is two entries shorter than the chain, the only
    exception class raised is [InverseKinematicsError]. *)
Theorem validated_solution_is_allclose r pose atol e :
  ikfast_info (cls r) <> None ->
  (forall v e',
     inverse_kinematics X r pose true true atol e = (inr v, e') ->
     exists p e'',
       forward_kinematics X r v e' = (inr p, e'') /\
       allclose (position p) (position pose) atol = true) /\
  (forall js,
     arm_joints X r = inr js ->
     present (joints e) js ->
     (forall sol others,
        ikfast_closest_inverse_kinematics X r pose e = sol :: others ->
        length sol = (length js - 2)%nat) ->
     forall x e',
       inverse_kinematics X r pose true true atol e = (inl x, e') ->
       class_of x = InverseKinematicsError_cls) /\
  (forall v target_orientation,
     _validate_joints_state X r v pose atol e
     = _validate_joints_state X r v
         (mkPose (position pose) target_orientation) atol e).
Proof.
  intros Hik. unfold inverse_kinematics.
  destruct (ikfast_info (cls r)); [clear Hik|done].
  unfold bind, ret.
  pose proof (ikfast_leaves_engine r pose e) as Hpure.
  split; [|split; [|reflexivity]].
  - intros v e'.
    destruct (_ikfast_inverse_kinematics X r pose e) as [[x|v0] e0];
      cbn in Hpure; subst e0; [done|].
    destruct (except_ValueError _ _ e) as [[x|[]] e1] eqn:Hexc; [done|].
    destruct (set_joints X r v0 e1) as [[x|[]] e2] eqn:Hset; [done|].
    intros [= <- <-].
    apply except_ValueError_inr, validate_inr in Hexc
      as (js & ee & Hjs & Hee & Hp & Hlen & Hclose & ->).
    apply set_joints_inr in Hset as (js' & Hjs' & _ & Hp1 & ->).
    rewrite Hjs in Hjs'. inversion Hjs'; subst js'. cbn [joints commands] in *.
    unfold forward_kinematics, bind, lift, query, ret.
    rewrite (set_joints_ok r js v0 _ Hjs Hlen) by (cbn; by apply writes_present).
    rewrite Hee. cbn [joints commands].
    eexists _, _. split; [reflexivity|]. cbn [position].
    by rewrite rewrite_after_restore.
  - intros js Hjs Hp Harity x e'.
    destruct (arm_joints_inr r js Hjs)
      as (ee & chain & l & rf & Hee & Hch & Hl & Hrf & Hjseq).
    assert (Hlin : l ∈ js).
    { rewrite Hjseq. apply elem_of_app. right. by left. }
    assert (Hrin : rf ∈ js).
    { rewrite Hjseq. apply elem_of_app. right. right. by left. }
    assert (Hjlen : (2 <= length js)%nat).
    { rewrite Hjseq, length_app. cbn. lia. }
    destruct (finger_idx_inr r js l _ Hjs Hl Hlin) as (li & Hli & _).
    destruct (finger_idx_inr r js rf _ Hjs Hrf Hrin) as (ri & Hri & _).
    clear Hpure.
    unfold _ikfast_inverse_kinematics, bind, query, lift, raise, ret.
    destruct (ikfast_closest_inverse_kinematics X r pose e)
      as [|sol others] eqn:Hsol.
    { by intros [= <- <-]. }
    fold (left_finger_joint_idx X r) in Hli.
    fold (right_finger_joint_idx X r) in Hri.
    rewrite Hli, Hri.
    set (v0 := add_fingers li ri (open_fingers (cls r)) sol).
    assert (Hlen : length v0 = length js).
    { unfold v0. rewrite add_fingers_length, (Harity sol others eq_refl). lia. }
    destruct (validate_outcome r js v0 pose atol e Hjs Hp Hlen)
      as (e1 & Hp1 & [Hv|[a Hv]]);
      unfold except_ValueError; rewrite Hv.
    + rewrite (set_joints_ok r js v0 e1 Hjs Hlen Hp1). done.
    + by intros [= <- <-].
Qed.

End Properties.

(** The loop of [link_from_name] answers with the first joint whose link
    carries the name. *)
Lemma link_loop_found name infos ji :
  ji ∈ infos -> linkName ji = name ->
  exists pre first post,
    infos = pre ++ first :: post /\
    linkName first = name /\
    Forall (fun k => linkName k <> name) pre /\
    link_loop name infos = inr (jointIndex first).
Proof.
  induction infos as [|k infos IH]; intros Hin Hname.
  - by apply elem_of_nil in Hin.
  - cbn. destruct (decide (linkName k = name)) as [Hk|Hk].
    + exists [], k, infos. by repeat split.
    + apply elem_of_cons in Hin as [->|Hin]; [done|].
      destruct (IH Hin Hname) as (pre & first & post & -> & Hf & Hpre & Hres).
      exists (k :: pre), first, post. repeat split; try done.
      by constructor.
Qed.

Lemma link_loop_missing name infos :
  Forall (fun k => linkName k <> name) infos ->
  link_loop name infos = inl (ValueError (CouldNotFindLink name)).
Proof.
  induction 1 as [|k infos Hk _ IH]; [done|].
  cbn. by destruct (decide (linkName k = name)).
Qed.

(** C10: [link_from_name] returns [BASE_LINK] for the base link's name;
    for another name carried by some link it returns the index of the
    joint owning the first such link; and it raises [ValueError] when no
    link of the body carries the name. *)
Theorem link_from_name_cases r name :
  (name = base_link_name (body r) -> link_from_name r name = inr BASE_LINK) /\
  (name <> base_link_name (body r) ->
   (exists ji, ji ∈ joint_infos (body r) /\ linkName ji = name) ->
   exists pre first post,
     joint_infos (body r) = pre ++ first :: post /\
     linkName first = name /\
     Forall (fun k => linkName k <> name) pre /\
     link_from_name r name = inr (jointIndex first)) /\
  (name <> base_link_name (body r) ->
   Forall (fun k => linkName k <> name) (joint_infos (body r)) ->
   link_from_name r name = inl (ValueError (CouldNotFindLink name))).
Proof.
  unfold link_from_name. repeat split.
  - intros ->. by destruct (decide _).
  - intros Hb (ji & Hin & Hname).
    destruct (decide (name = base_link_name (body r))); [done|].
    by eapply link_loop_found.
  - intros Hb Hall.
    destruct (decide (name = base_link_name (body r))); [done|].
    by apply link_loop_missing.
Qed.

(* ===================================================================== *)
(** ** The operations on the concrete robots *)

(** C1 on the slider: the solver answers 5 for a target at 1, validation
    fails, and the joints read as before. *)
Lemma inverse_kinematics_validate_keeps_joints_witness :
  (inverse_kinematics world_far (slider "reset" slider_home) (pose_at 1)
     true false 0.001%Q slider_engine).1
  = inl (InverseKinematicsError
           (FromValueError (JointStatesDoNotMatch (1, 0, 0)%Q (5, 0, 0)%Q))) /\
  get_joints world_far (slider "reset" slider_home)
     (inverse_kinematics world_far (slider "reset" slider_home) (pose_at 1)
        true false 0.001%Q slider_engine).2
  = get_joints world_far (slider "reset" slider_home) slider_engine.
Proof.
  split; [vm_compute; reflexivity|].
  apply (inverse_kinematics_validate_keeps_joints world_far
           (slider "reset" slider_home) (pose_at 1) 0.001%Q slider_engine).
  simpl. discriminate.
Defined.

(** C2, the claim as stated fails: for a target at x = 1 with tolerance
    0.001 the solver's 1.001005 is returned, although the forward
    kinematics of the returned vector lie 0.001005 from the target. *)
Lemma validated_solution_outside_tolerance :
  exists v e' p e'',
    inverse_kinematics world_near (slider "reset" slider_home) (pose_at 1)
      true true 0.001%Q slider_engine = (inr v, e') /\
    forward_kinematics world_near (slider "reset" slider_home) v e'
      = (inr p, e'') /\
    within_tolerance (position p) (position (pose_at 1)) 0.001%Q = false.
Proof.
  eexists _, _, _, _. split; [vm_compute; reflexivity|].
  split; vm_compute; reflexivity.
Defined.

(** C2 as amended: on the call above the returned vector passes
    [allclose], and with the solver answering 5 the only exception is an
    [InverseKinematicsError]. *)
Lemma validated_solution_is_allclose_witness :
  (exists p e'',
     forward_kinematics world_near (slider "reset" slider_home)
       [1.001005; 0; 0.04; 0.04]%Q
       (inverse_kinematics world_near (slider "reset" slider_home) (pose_at 1)
          true true 0.001%Q slider_engine).2
     = (inr p, e'') /\
     allclose (position p) (position (pose_at 1)) 0.001%Q = true) /\
  (forall x e',
     inverse_kinematics world_far (slider "reset" slider_home) (pose_at 1)
       true true 0.001%Q slider_engine = (inl x, e') ->
     class_of x = InverseKinematicsError_cls).
Proof.
  destruct (validated_solution_is_allclose world_near
              (slider "reset" slider_home) (pose_at 1) 0.001%Q slider_engine)
    as (Hclose & _ & _); [simpl; discriminate|].
  destruct (validated_solution_is_allclose world_far
              (slider "reset" slider_home) (pose_at 1) 0.001%Q slider_engine)
    as (_ & Hclass & _); [simpl; discriminate|].
  split.
  - apply Hclose. vm_compute. reflexivity.
  - apply (Hclass [0; 3; 1; 2]).
    + vm_compute. reflexivity.
    + unfold present. apply (bool_decide_unpack _). vm_compute. exact I.
    + intros sol others H. vm_compute in H. inversion H. reflexivity.
Defined.

(** C3, the claim as stated fails: the exception raised when the solver
    finds nothing has the class of the one raised on a validation
    mismatch, [InverseKinematicsError]. *)
Lemma no_solution_error_is_not_distinct :
  exists x y,
    ikfast_closest_inverse_kinematics world_none (slider "reset" slider_home)
      (pose_at 1) slider_engine = [] /\
    (inverse_kinematics world_none (slider "reset" slider_home) (pose_at 1)
       true false 0.001%Q slider_engine).1 = inl x /\
    (inverse_kinematics world_far (slider "reset" slider_home) (pose_at 1)
       true false 0.001%Q slider_engine).1 = inl y /\
    y = InverseKinematicsError
          (FromValueError (JointStatesDoNotMatch (1, 0, 0)%Q (5, 0, 0)%Q)) /\
    class_of x = InverseKinematicsError_cls /\
    class_of x = class_of y.
Proof.
  eexists _, _. repeat split; vm_compute; reflexivity.
Defined.

(** C3 as amended, on the slider. *)
Lemma no_solution_raises_inverse_kinematics_error_witness :
  inverse_kinematics world_none (slider "reset" slider_home) (pose_at 1)
    true true 0.001%Q slider_engine
  = (inl (InverseKinematicsError (NoIKSolutionFound (pose_at 1))), slider_engine).
Proof.
  apply (no_solution_raises_inverse_kinematics_error world_none).
  - simpl. discriminate.
  - reflexivity.
Defined.

(** C4 fails on the code: a slider built with the home vector
    [0.5, 0, 0.04, 0.04] is sent by [go_home] to the class default
    [0, 0, 0.04, 0.04], whereas [set_motors] on the instance's home vector
    leaves joint 0 at 0.5. *)
Theorem go_home_ignores_instance_home :
  exists r e1,
    __init__ world_none slider_class identity_pose "reset"
      (Some [0.5; 0; 0.04; 0.04]%Q) empty_engine = (inr r, e1) /\
    home_joint_positions r = [0.5; 0; 0.04; 0.04]%Q /\
    get_joints world_none r (go_home world_none r e1).2
      = inr [0; 0; 0.04; 0.04]%Q /\
    get_joints world_none r
      (set_motors world_none r (home_joint_positions r) e1).2
      = inr [0.5; 0; 0.04; 0.04]%Q.
Proof.
  eexists _, _. repeat split; vm_compute; reflexivity.
Qed.

(** C5 on the thirteen-joint body: chain [2,4,6,9,10,11,12], slots 5 and
    6. *)
Lemma finger_slot_insertion_witness :
  exists v,
    _ikfast_inverse_kinematics world_five five_axis (pose_at 1) slider_engine
      = (inr v, slider_engine) /\
    v = [0.1; 0.2; 0.3; 0.4; 0.5; 0.04; 0.04]%Q /\
    length v = length [2; 4; 6; 9; 10; 11; 12] /\
    v !! 5%nat = Some 0.04%Q /\
    v !! 6%nat = Some 0.04%Q /\
    delete 5%nat (delete 6%nat v) = [0.1; 0.2; 0.3; 0.4; 0.5]%Q.
Proof.
  destruct (finger_slot_insertion world_five five_axis
              [2; 4; 6; 9; 10; 11; 12] 5 6 [0.1; 0.2; 0.3; 0.4; 0.5]%Q []
              (pose_at 1) slider_engine)
    as [(v & Hv & Hlen & Hl & Hr & Hdel) _].
  - vm_compute. reflexivity.
  - vm_compute. reflexivity.
  - vm_compute. reflexivity.
  - lia.
  - reflexivity.
  - reflexivity.
  - exists v. repeat split; try assumption.
    vm_compute in Hv. by inversion Hv.
Defined.

(** C6, the claim as stated fails: with the tool frame mounted on the
    left finger, the left finger joint 1 is on the kinematic chain, so it
    occurs in the sorted prefix of the chain [0,1,3,1,2], which has five
    entries although only two of them are not finger joints. *)
Lemma finger_joint_in_sorted_prefix :
  arm_joints world_hooked (hooked slider_home) = inr [0; 1; 3; 1; 2] /\
  get_kinematic_chain world_hooked (joint_infos hooked_body) 3 = inr [3; 1; 0] /\
  left_finger_id (hooked slider_home) = inr 1 /\
  right_finger_id (hooked slider_home) = inr 2 /\
  1 ∈ take 3 [0; 1; 3; 1; 2] /\
  length (filter (fun j => j <> 1 /\ j <> 2) [0; 1; 3; 1; 2]) = 2%nat /\
  length [0; 1; 3; 1; 2] <> (2 + 2)%nat.
Proof.
  repeat split; try (vm_compute; reflexivity).
  - cbn. set_solver.
  - cbn. lia.
Defined.

(** C6 as amended, on the slider: chain [3,0], fingers 1 and 2. *)
Lemma arm_joints_layout_witness :
  arm_joints world_none (slider "reset" slider_home) = inr [0; 3; 1; 2] /\
  exists ee chain l rf,
    end_effector_id (slider "reset" slider_home) = inr ee /\
    get_kinematic_chain world_none (joint_infos slider_body) ee = inr chain /\
    left_finger_id (slider "reset" slider_home) = inr l /\
    right_finger_id (slider "reset" slider_home) = inr rf /\
    let n := length chain in
    length [0; 3; 1; 2] = (n + 2)%nat /\
    [0; 3; 1; 2] !! n = Some l /\
    [0; 3; 1; 2] !! S n = Some rf /\
    Sorted Z.le (take n [0; 3; 1; 2]) /\
    take n [0; 3; 1; 2] ≡ₚ chain /\
    ((l ∉ chain) -> (rf ∉ chain) ->
       (l ∉ take n [0; 3; 1; 2]) /\ (rf ∉ take n [0; 3; 1; 2]) /\
       length (filter (fun j => j <> l /\ j <> rf) [0; 3; 1; 2]) = n).
Proof.
  split; [vm_compute; reflexivity|].
  apply (arm_joints_layout world_none (slider "reset" slider_home)).
  vm_compute. reflexivity.
Defined.

(** C7 on the slider: two values for a chain of four joints. *)
Lemma set_joints_length_precondition_witness :
  set_joints world_none (slider "reset" slider_home) [1; 2]%Q slider_engine
    = (inl AssertionError, slider_engine) /\
  (set_joints world_none (slider "reset" slider_home) [1; 2; 3; 4]%Q
     slider_engine).1 <> inl AssertionError.
Proof.
  destruct (set_joints_length_precondition world_none
              (slider "reset" slider_home) [0; 3; 1; 2] [1; 2]%Q slider_engine)
    as [Hbad _]; [vm_compute; reflexivity|].
  destruct (set_joints_length_precondition world_none
              (slider "reset" slider_home) [0; 3; 1; 2] [1; 2; 3; 4]%Q
              slider_engine)
    as [_ Hgood]; [vm_compute; reflexivity|].
  split; [apply Hbad; simpl; lia|apply Hgood; reflexivity].
Defined.

(** C8 on the slider, in "reset" mode and in an unknown "torque" mode. *)
Lemma set_motors_reset_and_unsupported_witness :
  set_motors world_none (slider "reset" slider_home) [1; 2; 3; 4]%Q slider_engine
    = set_joints world_none (slider "reset" slider_home) [1; 2; 3; 4]%Q
        slider_engine /\
  set_motors world_none (slider "torque" slider_home) [1; 2; 3; 4]%Q
    slider_engine
    = (inl (NotImplementedError "torque"), slider_engine).
Proof.
  split.
  - apply (set_motors_reset_and_unsupported world_none
             (slider "reset" slider_home) [0; 3; 1; 2] [1; 2; 3; 4]%Q
             slider_engine);
      [vm_compute; reflexivity|reflexivity|reflexivity].
  - apply (set_motors_reset_and_unsupported world_none
             (slider "torque" slider_home) [0; 3; 1; 2] [1; 2; 3; 4]%Q
             slider_engine);
      [vm_compute; reflexivity|reflexivity|simpl; discriminate
      |simpl; discriminate].
Defined.

(** C9, the claim as stated fails: on the body whose chain is
    [0,1,3,1,2], construction with the home vector [0, 0.01, 0, 0.04, 0.04]
    succeeds and the first [get_joints()] returns
    [0, 0.04, 0, 0.04, 0.04]. *)
Lemma first_get_joints_is_not_home :
  exists r e1,
    __init__ world_hooked slider_class identity_pose "reset"
      (Some [0; 0.01; 0; 0.04; 0.04]%Q) empty_engine = (inr r, e1) /\
    home_joint_positions r = [0; 0.01; 0; 0.04; 0.04]%Q /\
    get_joints world_hooked r e1 = inr [0; 0.04; 0; 0.04; 0.04]%Q /\
    get_joints world_hooked r e1 <> inr (home_joint_positions r).
Proof.
  eexists _, _. repeat split; try (vm_compute; reflexivity).
  vm_compute. discriminate.
Defined.

(** C9 as amended, on the slider built with its own home vector. *)
Lemma init_leaves_robot_at_home_witness :
  get_joints world_none (slider "reset" [0.5; 0; 0.04; 0.04]%Q)
    (__init__ world_none slider_class identity_pose "reset"
       (Some [0.5; 0; 0.04; 0.04]%Q) empty_engine).2
  = inr [0.5; 0; 0.04; 0.04]%Q.
Proof.
  apply (init_leaves_robot_at_home world_none slider_class identity_pose
           "reset" (Some [0.5; 0; 0.04; 0.04]%Q) empty_engine
           (slider "reset" [0.5; 0; 0.04; 0.04]%Q) _ [0; 3; 1; 2]).
  - vm_compute. reflexivity.
  - vm_compute. reflexivity.
  - apply (bool_decide_unpack _). vm_compute. exact I.
Defined.

(** C10 on the slider: the base "rail", the link "tool_link" of joint 3,
    and a name no link carries. *)
Lemma link_from_name_cases_witness :
  link_from_name (slider "reset" slider_home) "rail" = inr BASE_LINK /\
  (exists pre first post,
     joint_infos slider_body = pre ++ first :: post /\
     linkName first = "tool_link"%string /\
     Forall (fun k => linkName k <> "tool_link"%string) pre /\
     link_from_name (slider "reset" slider_home) "tool_link"
       = inr (jointIndex first)) /\
  link_from_name (slider "reset" slider_home) "elbow"
    = inl (ValueError (CouldNotFindLink "elbow")).
Proof.
  repeat apply conj.
  - apply (link_from_name_cases (slider "reset" slider_home) "rail").
    reflexivity.
  - apply (link_from_name_cases (slider "reset" slider_home) "tool_link").
    + simpl. discriminate.
    + exists (mkJointInfo 3 "tool_joint" "tool_link" 0). split; [|reflexivity].
      simpl. set_solver.
  - apply (link_from_name_cases (slider "reset" slider_home) "elbow").
    + simpl. discriminate.
    + simpl. repeat constructor; simpl; discriminate.
Defined.

(* ===================================================================== *)
(** ** Lookups by name *)

Section PyIndex.

Context {A : Type} `{EqDecision A}.

Lemma py_index_first (x : A) l i :
  py_index x l = Some i -> forall j, (j < i)%nat -> l !! j <> Some x.
Proof.
  revert i. induction l as [|y l IH]; intros i H j Hj; cbn in H; [done|].
  destruct (decide (y = x)) as [->|Hyx].
  - inversion H. lia.
  - destruct (py_index x l) as [k|]; cbn in H; [|done].
    inversion H; subst i. destruct j as [|j]; cbn.
    + congruence.
    + apply (IH k eq_refl). lia.
Qed.

Lemma py_index_None (x : A) l : x ∉ l -> py_index x l = None.
Proof.
  induction l as [|y l IH]; intros Hx; [done|].
  apply not_elem_of_cons in Hx as [Hxy Hx].
  cbn. destruct (decide (y = x)); [congruence|].
  by rewrite IH.
Qed.

Lemma py_index_NoDup (x : A) l i :
  NoDup l -> l !! i = Some x -> py_index x l = Some i.
Proof.
  intros Hnd. revert i. induction Hnd as [|y l Hy _ IH]; intros i Hi; [done|].
  cbn. destruct i as [|i]; cbn in Hi.
  - inversion Hi. by destruct (decide (x = x)).
  - destruct (decide (y = x)) as [->|].
    + exfalso. apply Hy. by eapply list_elem_of_lookup_2.
    + by rewrite (IH i Hi).
Qed.

Lemma py_index_app_notin (x : A) l1 l2 :
  x ∉ l1 ->
  py_index x (l1 ++ l2) = (fun i => (length l1 + i)%nat) <$> py_index x l2.
Proof.
  induction l1 as [|y l1 IH]; intros Hx.
  - cbn. by destruct (py_index x l2).
  - apply not_elem_of_cons in Hx as [Hxy Hx].
    cbn. destruct (decide (y = x)); [congruence|].
    rewrite IH by done. by destruct (py_index x l2).
Qed.

End PyIndex.

(** X1: [joint_from_name] answers with the position of the first joint
    carrying the name, and raises [ValueError] when no joint of the body
    carries it. *)
Theorem joint_from_name_first_position r name :
  (name ∈ joint_names r ->
   exists i,
     joint_from_name r name = inr (Z.of_nat i) /\
     joint_names r !! i = Some name /\
     forall j, (j < i)%nat -> joint_names r !! j <> Some name) /\
  (name ∉ joint_names r ->
   joint_from_name r name = inl (ValueError (NameNotInList name))).
Proof.
  unfold joint_from_name. split; intros Hname.
  - destruct (py_index_elem_of name _ Hname) as [i Hi]. rewrite Hi.
    exists i. split; [done|].
    split; [by apply py_index_Some in Hi as [_ ?]|by apply py_index_first].
  - by rewrite py_index_None.
Qed.

Lemma py_getitem_of_nat {A} (l : list A) (i : nat) :
  py_getitem l (Z.of_nat i) = l !! i.
Proof.
  unfold py_getitem.
  destruct (Z.ltb_spec (Z.of_nat i) 0) as [Hneg|_]; [lia|].
  by rewrite Nat2Z.id.
Qed.

(** X2: [joint_info_from_name] returns a record of the body that carries
    the name whenever some joint does, raises the [ValueError] of the
    name lookup otherwise, and its subscript is never out of range. *)
Theorem joint_info_from_name_found r name :
  (name ∈ joint_names r ->
   exists joint_info,
     joint_info_from_name r name = inr joint_info /\
     jointName joint_info = name /\
     joint_info ∈ joint_infos (body r)) /\
  (name ∉ joint_names r ->
   joint_info_from_name r name = inl (Raised (ValueError (NameNotInList name)))) /\
  (forall i, joint_info_from_name r name <> inl (IndexError i)).
Proof.
  unfold joint_info_from_name, joint_from_name.
  assert (Hfound : forall i, py_index name (joint_names r) = Some i ->
            exists ji, joint_infos (body r) !! i = Some ji /\ jointName ji = name).
  { intros i Hi. apply py_index_Some in Hi as [_ Hi].
    unfold joint_names in Hi. rewrite list_lookup_fmap in Hi.
    destruct (joint_infos (body r) !! i) as [ji|]; [|done].
    exists ji. split; [done|]. by inversion Hi. }
  repeat split.
  - intros Hname. destruct (py_index_elem_of name _ Hname) as [i Hi].
    rewrite Hi, py_getitem_of_nat.
    destruct (Hfound i Hi) as (ji & Hji & Hn). rewrite Hji.
    exists ji. repeat split; [done|]. by eapply list_elem_of_lookup_2.
  - intros Hname. by rewrite py_index_None.
  - intros i. destruct (py_index name (joint_names r)) as [k|] eqn:Hk; [|done].
    rewrite py_getitem_of_nat.
    destruct (Hfound k eq_refl) as (ji & Hji & _). by rewrite Hji.
Qed.

Lemma link_loop_NoDup infos ji :
  NoDup (map linkName infos) -> ji ∈ infos ->
  link_loop (linkName ji) infos = inr (jointIndex ji).
Proof.
  induction infos as [|k infos IH]; intros Hnd Hin.
  - by apply elem_of_nil in Hin.
  - cbn in Hnd. apply NoDup_cons in Hnd as [Hk Hnd].
    cbn. destruct (decide (linkName k = linkName ji)) as [Heq|Hne].
    + apply elem_of_cons in Hin as [->|Hin]; [done|].
      exfalso. apply Hk. rewrite Heq.
      apply list_elem_of_fmap. by exists ji.
    + apply elem_of_cons in Hin as [->|Hin]; [done|]. by apply IH.
Qed.

(** X3: on a body whose joints are listed by index, with pairwise
    distinct joint names and link names, the id found for a joint's name
    and the id found for its link's name (when it is not the base link's)
    are both the joint's own index. *)
Theorem joint_and_link_ids_agree r joint_info :
  numbered_in_order (joint_infos (body r)) ->
  NoDup (joint_names r) ->
  NoDup (map linkName (joint_infos (body r))) ->
  joint_info ∈ joint_infos (body r) ->
  linkName joint_info <> base_link_name (body r) ->
  joint_from_name r (jointName joint_info) = inr (jointIndex joint_info) /\
  link_from_name r (linkName joint_info) = inr (jointIndex joint_info).
Proof.
  intros Hnum Hnames Hlinks Hin Hbase. split.
  - apply list_elem_of_lookup in Hin as [i Hi].
    assert (Hname : joint_names r !! i = Some (jointName joint_info)).
    { unfold joint_names. by rewrite list_lookup_fmap, Hi. }
    unfold joint_from_name. rewrite (py_index_NoDup _ _ i Hnames Hname).
    f_equal. unfold numbered_in_order in Hnum.
    assert (Hidx : map jointIndex (joint_infos (body r)) !! i
                   = Some (jointIndex joint_info)).
    { by rewrite list_lookup_fmap, Hi. }
    rewrite Hnum, list_lookup_fmap in Hidx.
    assert (Hi' : (i < length (joint_infos (body r)))%nat)
      by (by eapply lookup_lt_Some).
    rewrite lookup_seq_lt in Hidx by done. cbn in Hidx. by inversion Hidx.
  - unfold link_from_name.
    destruct (decide (linkName joint_info = base_link_name (body r))); [done|].
    by apply link_loop_NoDup.
Qed.

(** X1 on the slider. *)
Lemma joint_from_name_first_position_witness :
  (exists i,
     joint_from_name (slider "reset" slider_home) "tool_joint" = inr (Z.of_nat i) /\
     joint_names (slider "reset" slider_home) !! i = Some "tool_joint"%string /\
     forall j, (j < i)%nat ->
       joint_names (slider "reset" slider_home) !! j <> Some "tool_joint"%string) /\
  joint_from_name (slider "reset" slider_home) "wrist_joint"
    = inl (ValueError (NameNotInList "wrist_joint")).
Proof.
  split.
  - apply (joint_from_name_first_position (slider "reset" slider_home) "tool_joint").
    apply (bool_decide_unpack _). vm_compute. exact I.
  - apply (joint_from_name_first_position (slider "reset" slider_home) "wrist_joint").
    apply (bool_decide_unpack _). vm_compute. exact I.
Defined.

(** X2 on the slider. *)
Lemma joint_info_from_name_found_witness :
  (exists joint_info,
     joint_info_from_name (slider "reset" slider_home) "left_finger_joint"
       = inr joint_info /\
     jointName joint_info = "left_finger_joint"%string /\
     joint_info ∈ joint_infos slider_body) /\
  joint_info_from_name (slider "reset" slider_home) "wrist_joint"
    = inl (Raised (ValueError (NameNotInList "wrist_joint"))).
Proof.
  split.
  - apply (joint_info_from_name_found (slider "reset" slider_home)
             "left_finger_joint").
    apply (bool_decide_unpack _). vm_compute. exact I.
  - apply (joint_info_from_name_found (slider "reset" slider_home) "wrist_joint").
    apply (bool_decide_unpack _). vm_compute. exact I.
Defined.

(** X3 on the slider's tool joint. *)
Lemma joint_and_link_ids_agree_witness :
  joint_from_name (slider "reset" slider_home) "tool_joint" = inr 3 /\
  link_from_name (slider "reset" slider_home) "tool_link" = inr 3.
Proof.
  apply (joint_and_link_ids_agree (slider "reset" slider_home)
           (mkJointInfo 3 "tool_joint" "tool_link" 0)).
  - reflexivity.
  - apply (bool_decide_unpack _). vm_compute. exact I.
  - apply (bool_decide_unpack _). vm_compute. exact I.
  - apply list_elem_of_lookup_2 with 3%nat. reflexivity.
  - simpl. discriminate.
Defined.

(* ===================================================================== *)
(** ** Joint state, motors and forward kinematics *)

Lemma writes_velocity ws m k :
  k ∈ ws.*1 ->
  exists s, writes ws m !! k = Some s /\ jointVelocity s = 0%Q.
Proof.
  revert m. induction ws as [|[j x] ws IH]; intros m Hk.
  - by apply elem_of_nil in Hk.
  - rewrite writes_cons. cbn [fst snd].
    destruct (decide (k ∈ ws.*1)) as [Hin|Hnin]; [by apply IH|].
    cbn in Hk. apply elem_of_cons in Hk as [->|]; [|done].
    rewrite writes_lookup_other by done. rewrite lookup_insert_eq.
    by eexists.
Qed.

Section JointState.

Variable X : External.

(** Writing a vector computed from the joint indices reads back as that
    vector. *)
Lemma write_by_key_reads_back r js (f : Z -> Q) e :
  arm_joints X r = inr js ->
  present (joints e) js ->
  get_joints X r (set_joints X r (map f js) e).2 = inr (map f js).
Proof.
  intros Hjs Hp.
  rewrite (set_joints_ok X r js (map f js) e Hjs) by (by rewrite ?length_map).
  cbn [snd]. unfold get_joints, pbind. rewrite Hjs.
  rewrite get_joint_positions_present by (cbn; by apply writes_present).
  f_equal. cbn. apply map_ext_in. intros k Hk.
  apply list_elem_of_In in Hk. unfold position_of.
  by rewrite (writes_by_key f js _ k Hk).
Qed.

Lemma forward_kinematics_engine r js v e :
  arm_joints X r = inr js ->
  (forward_kinematics X r v e).2 = (set_joints X r v e).2.
Proof.
  intros Hjs.
  destruct (arm_joints_inr X r js Hjs) as (ee & chain & l & rf & Hee & _).
  unfold forward_kinematics, bind, lift, query, ret.
  destruct (set_joints X r v e) as [[x|[]] e1]; [done|].
  by rewrite Hee.
Qed.

(** X4: on a chain without a repeated joint, a successful [set_joints(v)]
    followed by [get_joints()] returns [v]. *)
Theorem set_joints_then_get_joints r js v e e' :
  arm_joints X r = inr js ->
  NoDup js ->
  set_joints X r v e = (inr tt, e') ->
  get_joints X r e' = inr v.
Proof.
  intros Hjs Hnd Hset.
  apply set_joints_inr in Hset as (js' & Hjs' & Hlen & Hp & ->).
  rewrite Hjs in Hjs'. inversion Hjs'; subst js'.
  unfold get_joints, pbind. rewrite Hjs.
  rewrite get_joint_positions_present by (cbn; by apply writes_present).
  cbn [joints]. f_equal. by apply writes_zip_NoDup.
Qed.

(** X5: a successful [set_joints] leaves every chain joint with velocity
    zero, leaves every joint outside the chain as it was, and issues no
    motor command. *)
Theorem set_joints_frame r js v e e' :
  arm_joints X r = inr js ->
  set_joints X r v e = (inr tt, e') ->
  (forall j, j ∈ js ->
     exists s, joints e' !! j = Some s /\ jointVelocity s = 0%Q) /\
  (forall j, j ∉ js -> joints e' !! j = joints e !! j) /\
  commands e' = commands e.
Proof.
  intros Hjs Hset.
  apply set_joints_inr in Hset as (js' & Hjs' & Hlen & Hp & ->).
  rewrite Hjs in Hjs'. inversion Hjs'; subst js'. cbn [joints commands].
  repeat split.
  - intros j Hj. apply writes_velocity. by rewrite fst_zip by lia.
  - intros j Hj. apply writes_lookup_other.
    intros Hc. by apply fst_zip_subseteq in Hc.
Qed.

(** X6: [set_joints] forgets what an earlier [set_joints] wrote: after a
    successful [set_joints(w)], [set_joints(v)] with [v] of chain length
    gives the engine that [set_joints(v)] alone gives. *)
Theorem set_joints_overwrites r js v w e e1 :
  arm_joints X r = inr js ->
  length v = length js ->
  set_joints X r w e = (inr tt, e1) ->
  set_joints X r v e1 = set_joints X r v e.
Proof.
  intros Hjs Hlen Hset.
  apply set_joints_inr in Hset as (js' & Hjs' & Hlenw & Hp & ->).
  rewrite Hjs in Hjs'. inversion Hjs'; subst js'.
  rewrite (set_joints_ok X r js v e Hjs Hlen Hp).
  rewrite (set_joints_ok X r js v _ Hjs Hlen) by (cbn; by apply writes_present).
  cbn [joints commands]. do 2 f_equal.
  apply writes_absorb. intros k Hk. rewrite fst_zip in Hk by lia.
  apply writes_lookup_other. intros Hc. by apply fst_zip_subseteq in Hc.
Qed.

(** X7: in "position" mode, [set_motors] on a vector of chain length
    issues exactly one batched command, over the whole chain with the
    vector as targets, and writes no joint state. *)
Theorem set_motors_position_one_command r js v e :
  arm_joints X r = inr js ->
  length v = length js ->
  _control_mode r = "position"%string ->
  set_motors X r v e
  = (inr tt, mkEngine (joints e) (mkMotorCommand js v :: commands e)) /\
  get_joints X r (set_motors X r v e).2 = get_joints X r e.
Proof.
  intros Hjs Hlen Hmode.
  assert (Hrun : set_motors X r v e
            = (inr tt, mkEngine (joints e) (mkMotorCommand js v :: commands e))).
  { unfold set_motors, bind, lift. rewrite Hjs, Hlen, Nat.eqb_refl. cbn.
    by rewrite Hmode. }
  split; [exact Hrun|]. rewrite Hrun. cbn [snd].
  unfold get_joints, pbind. rewrite Hjs. by apply get_joint_positions_ext.
Qed.

(** X8: [set_motors] checks the length before it looks at the control
    mode: a vector of the wrong length raises the assertion failure in
    every mode, also an unsupported one, on an unchanged engine. *)
Theorem set_motors_length_checked_first r js v e :
  arm_joints X r = inr js ->
  length v <> length js ->
  set_motors X r v e = (inl AssertionError, e).
Proof.
  intros Hjs Hlen. unfold set_motors, bind, lift. rewrite Hjs.
  apply Nat.eqb_neq in Hlen. by rewrite Hlen.
Qed.

(** X9: when the class names an end-effector joint the body does not
    have, the chain cannot be built; and whenever the chain cannot be
    built, [get_joints], [set_joints], [set_motors], [go_home] and
    [forward_kinematics] raise the chain's exception on an unchanged
    engine. *)
Theorem unbuilt_chain_propagates r v e :
  (end_effector_name (cls r) ∉ joint_names r ->
   arm_joints X r = inl (ValueError (NameNotInList (end_effector_name (cls r))))) /\
  (forall x,
     arm_joints X r = inl x ->
     get_joints X r e = inl x /\
     set_joints X r v e = (inl x, e) /\
     set_motors X r v e = (inl x, e) /\
     go_home X r e = (inl x, e) /\
     forward_kinematics X r v e = (inl x, e)).
Proof.
  split.
  - intros Hname. unfold arm_joints, end_effector_id, joint_from_name.
    by rewrite py_index_None.
  - intros x Hx.
    assert (Hset : forall u, set_joints X r u e = (inl x, e))
      by (intros u; by apply set_joints_no_chain).
    assert (Hmot : forall u, set_motors X r u e = (inl x, e)).
    { intros u. unfold set_motors, bind, lift. by rewrite Hx. }
    repeat split.
    + unfold get_joints, pbind. by rewrite Hx.
    + apply Hset.
    + apply Hmot.
    + apply Hmot.
    + unfold forward_kinematics, bind. by rewrite Hset.
Qed.

(** X10: [forward_kinematics(v)] is [set_joints(v)] followed by
    [get_end_effector_pose()]: it raises exactly where [set_joints]
    raises, with the same exception and engine, and otherwise returns the
    pose read on the engine [set_joints] left. *)
Theorem forward_kinematics_composition r v e :
  (forall x e', set_joints X r v e = (inl x, e') ->
     forward_kinematics X r v e = (inl x, e')) /\
  (forall e', set_joints X r v e = (inr tt, e') ->
     exists p,
       forward_kinematics X r v e = (inr p, e') /\
       get_end_effector_pose X r e' = (inr p, e')).
Proof.
  split.
  - intros x e' Hset. unfold forward_kinematics, bind. by rewrite Hset.
  - intros e' Hset.
    pose proof Hset as Hset'.
    apply set_joints_inr in Hset' as (js & Hjs & _).
    destruct (arm_joints_inr X r js Hjs) as (ee & chain & l & rf & Hee & _).
    unfold forward_kinematics, get_end_effector_pose, bind, lift, query, ret.
    rewrite Hset, Hee. by eexists.
Qed.

(** X11: saving [get_joints()], calling [forward_kinematics] on any
    vector (also one of the wrong length) and writing the saved vector
    back with [set_joints] leaves [get_joints()] as it was. *)
Theorem forward_kinematics_then_restore r prior v e :
  get_joints X r e = inr prior ->
  get_joints X r
    (set_joints X r prior (forward_kinematics X r v e).2).2
  = inr prior.
Proof.
  intros Hget. unfold get_joints, pbind in Hget.
  destruct (arm_joints X r) as [|js] eqn:Hjs; [done|].
  apply get_joint_positions_inr in Hget as [Hp ->].
  rewrite (forward_kinematics_engine r js v e Hjs).
  destruct (decide (length v = length js)) as [Hlen|Hlen].
  - rewrite (set_joints_ok X r js v e Hjs Hlen Hp). cbn [snd].
    apply write_by_key_reads_back; [done|]. cbn. by apply writes_present.
  - rewrite (set_joints_mismatch X r js v e Hjs Hlen). cbn [snd].
    by apply write_by_key_reads_back.
Qed.

(** X12: the pose [forward_kinematics(v)] computes does not depend on
    where an earlier [set_joints] left the chain: after a successful
    [set_joints(w)] it gives the result and engine it gives without. *)
Theorem forward_kinematics_ignores_prior_set r js v w e e1 :
  arm_joints X r = inr js ->
  length v = length js ->
  set_joints X r w e = (inr tt, e1) ->
  forward_kinematics X r v e1 = forward_kinematics X r v e.
Proof.
  intros Hjs Hlen Hset.
  apply set_joints_inr in Hset as (js' & Hjs' & Hlenw & Hp & ->).
  rewrite Hjs in Hjs'. inversion Hjs'; subst js'.
  unfold forward_kinematics, bind.
  rewrite (set_joints_ok X r js v e Hjs Hlen Hp).
  rewrite (set_joints_ok X r js v _ Hjs Hlen) by (cbn; by apply writes_present).
  cbn [joints commands].
  replace (writes (zip js v) (writes (zip js w) (joints e)))
    with (writes (zip js v) (joints e)); [done|].
  apply writes_absorb. intros k Hk. rewrite fst_zip in Hk by lia.
  symmetry. apply writes_lookup_other.
  intros Hc. by apply fst_zip_subseteq in Hc.
Qed.

End JointState.

(* ===================================================================== *)
(** ** Finger slots *)

(** X13: the two insertions of [add_fingers] do not depend on which slot
    is the left one.  For distinct slots within the grown vector the
    finger value sits at both, whichever is larger, and removing the two
    slots gives back the solution; slots at or past the end of the
    solution append. *)
Theorem add_fingers_any_order li ri x (sol : list Q) :
  li <> ri ->
  add_fingers li ri x sol = add_fingers ri li x sol /\
  ((Nat.max li ri <= S (length sol))%nat ->
     length (add_fingers li ri x sol) = S (S (length sol)) /\
     add_fingers li ri x sol !! li = Some x /\
     add_fingers li ri x sol !! ri = Some x /\
     delete (Nat.min li ri) (delete (Nat.max li ri) (add_fingers li ri x sol))
     = sol) /\
  ((length sol <= Nat.min li ri)%nat ->
     add_fingers li ri x sol = sol ++ [x; x]).
Proof.
  intros Hne. unfold add_fingers. repeat split.
  - by rewrite (Nat.min_comm ri li), (Nat.max_comm ri li).
  - by rewrite !py_insert_length.
  - assert (Hl1 : length (py_insert (Nat.min li ri) x sol) = S (length sol))
      by apply py_insert_length.
    destruct (Nat.max_spec li ri) as [[Hlt Hmax]|[Hle Hmax]];
      destruct (Nat.min_spec li ri) as [[Hlt' Hmin]|[Hle' Hmin]];
      rewrite Hmax, Hmin in *; try lia.
    + rewrite py_insert_lookup_lt by lia. apply py_insert_lookup. lia.
    + apply py_insert_lookup. lia.
  - assert (Hl1 : length (py_insert (Nat.min li ri) x sol) = S (length sol))
      by apply py_insert_length.
    destruct (Nat.max_spec li ri) as [[Hlt Hmax]|[Hle Hmax]];
      destruct (Nat.min_spec li ri) as [[Hlt' Hmin]|[Hle' Hmin]];
      rewrite Hmax, Hmin in *; try lia.
    + apply py_insert_lookup. lia.
    + rewrite py_insert_lookup_lt by lia. apply py_insert_lookup. lia.
  - assert (Hl1 : length (py_insert (Nat.min li ri) x sol) = S (length sol))
      by apply py_insert_length.
    rewrite py_insert_delete by lia. apply py_insert_delete. lia.
  - intros Hpast.
    rewrite (py_insert_past_end (Nat.min li ri)) by done.
    rewrite py_insert_past_end by (rewrite length_app; cbn; lia).
    by rewrite <- app_assoc.
Qed.

Section Fingers.

Variable X : External.

(** On a chain without a repeated joint the fingers own the last two
    slots. *)
Lemma finger_slots_at_tail r js :
  arm_joints X r = inr js ->
  NoDup js ->
  left_finger_joint_idx X r = inr (length js - 2)%nat /\
  right_finger_joint_idx X r = inr (length js - 1)%nat.
Proof.
  intros Hjs Hnd.
  destruct (arm_joints_inr X r js Hjs)
    as (ee & chain & l & rf & Hee & Hch & Hl & Hrf & Hjseq).
  rewrite Hjseq in Hnd. apply NoDup_app in Hnd as (_ & Hdisj & Htail).
  assert (Hlrf : l <> rf).
  { apply NoDup_cons in Htail as [Hlrf _]. intros ->. apply Hlrf. by left. }
  assert (Hnl : l ∉ sorted chain).
  { intros Hc. apply (Hdisj l Hc). by left. }
  assert (Hnr : rf ∉ sorted chain).
  { intros Hc. apply (Hdisj rf Hc). right. by left. }
  assert (Hlen : length js = S (S (length (sorted chain)))).
  { rewrite Hjseq, length_app. cbn. lia. }
  unfold left_finger_joint_idx, right_finger_joint_idx, index_in_arm_joints, pbind.
  rewrite Hjs, Hl, Hrf, Hjseq.
  rewrite !py_index_app_notin by done. rewrite <- Hjseq, Hlen. cbn.
  destruct (decide (l = l)); [|done].
  destruct (decide (l = rf)); [done|].
  destruct (decide (rf = rf)); [|done].
  cbn. split; do 2 f_equal; lia.
Qed.

(** X14: on a built chain the finger slots always resolve, and the chain
    holds the finger joint ids at them. *)
Theorem finger_slots_resolve r js :
  arm_joints X r = inr js ->
  exists l rf li ri,
    left_finger_id r = inr l /\
    right_finger_id r = inr rf /\
    left_finger_joint_idx X r = inr li /\
    right_finger_joint_idx X r = inr ri /\
    js !! li = Some l /\
    js !! ri = Some rf.
Proof.
  intros Hjs.
  destruct (arm_joints_inr X r js Hjs)
    as (ee & chain & l & rf & Hee & Hch & Hl & Hrf & Hjseq).
  assert (Hlin : l ∈ js).
  { rewrite Hjseq. apply elem_of_app. right. by left. }
  assert (Hrin : rf ∈ js).
  { rewrite Hjseq. apply elem_of_app. right. right. by left. }
  destruct (finger_idx_inr X r js l _ Hjs Hl Hlin) as (li & Hli & Hil).
  destruct (finger_idx_inr X r js rf _ Hjs Hrf Hrin) as (ri & Hri & Hir).
  exists l, rf, li, ri. repeat split; try done.
  - by apply py_index_Some in Hil as [_ ?].
  - by apply py_index_Some in Hir as [_ ?].
Qed.

(** X15: on a chain without a repeated joint the left and right finger
    slots are the last two, so [_ikfast_inverse_kinematics] returns the
    solver's first solution, when it is two entries shorter than the
    chain, with the open-finger value appended twice; the engine is not
    touched. *)
Theorem ikfast_appends_open_fingers r js sol others pose e :
  arm_joints X r = inr js ->
  NoDup js ->
  ikfast_closest_inverse_kinematics X r pose e = sol :: others ->
  length sol = (length js - 2)%nat ->
  left_finger_joint_idx X r = inr (length js - 2)%nat /\
  right_finger_joint_idx X r = inr (length js - 1)%nat /\
  _ikfast_inverse_kinematics X r pose e
  = (inr (sol ++ [open_fingers (cls r); open_fingers (cls r)]), e).
Proof.
  intros Hjs Hnd Hsol Hlen.
  destruct (finger_slots_at_tail r js Hjs Hnd) as [Hli Hri].
  assert (Hjlen : (2 <= length js)%nat).
  { destruct (arm_joints_inr X r js Hjs) as (? & ? & ? & ? & _ & _ & _ & _ & ->).
    rewrite length_app. cbn. lia. }
  repeat split; try done.
  unfold _ikfast_inverse_kinematics, bind, query, lift, ret.
  rewrite Hsol, Hli, Hri. do 2 f_equal.
  unfold add_fingers. rewrite Nat.min_l, Nat.max_r by lia.
  rewrite (py_insert_past_end (length js - 2)) by lia.
  rewrite py_insert_past_end by (rewrite length_app; cbn; lia).
  by rewrite <- app_assoc.
Qed.

(** X16: on a chain without a repeated joint, after a successful
    [set_joints(v)] the finger state read by [get_finger_state] is the
    entry of [v] at the left finger slot. *)
Theorem finger_state_after_set_joints r js v e e' li x :
  arm_joints X r = inr js ->
  NoDup js ->
  set_joints X r v e = (inr tt, e') ->
  left_finger_joint_idx X r = inr li ->
  v !! li = Some x ->
  get_finger_state r e' = (inr x, e').
Proof.
  intros Hjs Hnd Hset Hli Hx.
  apply set_joints_inr in Hset as (js' & Hjs' & Hlen & Hp & ->).
  rewrite Hjs in Hjs'. inversion Hjs'; subst js'.
  unfold left_finger_joint_idx, index_in_arm_joints, pbind in Hli.
  rewrite Hjs in Hli.
  destruct (left_finger_id r) as [|l] eqn:Hl; [done|].
  destruct (py_index l js) as [k|] eqn:Hk; [|done].
  inversion Hli; subst k. apply py_index_Some in Hk as [Hlt Hjl].
  pose proof (writes_zip_NoDup js v (joints e) Hnd Hlen) as Hread.
  assert (Hpos : position_of (writes (zip js v) (joints e)) l = x).
  { assert (Hm : map (position_of (writes (zip js v) (joints e))) js !! li
                 = Some (position_of (writes (zip js v) (joints e)) l)).
    { by rewrite list_lookup_fmap, Hjl. }
    rewrite Hread, Hx in Hm. by inversion Hm. }
  assert (Hsome : is_Some (writes (zip js v) (joints e) !! l)).
  { apply writes_is_Some.
    eapply Forall_forall in Hp; [exact Hp|].
    by eapply list_elem_of_lookup_2. }
  destruct Hsome as [s Hs].
  unfold get_finger_state, bind, lift, query, ret, getJointState.
  rewrite Hl. cbn [joints]. rewrite Hs. unfold position_of in Hpos. rewrite Hs in Hpos.
  by rewrite Hpos.
Qed.

End Fingers.

(* ===================================================================== *)
(** ** Inverse kinematics and construction *)

Section InverseKinematics.

Variable X : External.

Lemma set_joints_reads_back r js v e e' :
  arm_joints X r = inr js ->
  NoDup js ->
  set_joints X r v e = (inr tt, e') ->
  get_joints X r e' = inr v.
Proof.
  intros Hjs Hnd Hset.
  apply set_joints_inr in Hset as (js' & Hjs' & Hlen & Hp & ->).
  rewrite Hjs in Hjs'. inversion Hjs'; subst js'.
  unfold get_joints, pbind. rewrite Hjs.
  rewrite get_joint_positions_present by (cbn; by apply writes_present).
  cbn [joints]. f_equal. by apply writes_zip_NoDup.
Qed.

(** After a validation that passed, writing the validated vector cannot
    fail. *)
Lemma validated_set_succeeds r v pose atol e u e1 :
  _validate_joints_state X r v pose atol e = (inr u, e1) ->
  exists e2, set_joints X r v e1 = (inr tt, e2).
Proof.
  intros Hval.
  apply validate_inr in Hval as (js & ee & Hjs & Hee & Hp & Hlen & _ & ->).
  eexists. apply (set_joints_ok X r js v _ Hjs Hlen).
  cbn. by do 2 apply writes_present.
Qed.

(** X17: on the analytic path, [inverse_kinematics] without validation
    and without [set_joints] is [_ikfast_inverse_kinematics] and leaves
    the engine as it found it, whether it returns or raises. *)
Theorem unvalidated_unapplied_ik_is_pure r pose atol e :
  ikfast_info (cls r) <> None ->
  inverse_kinematics X r pose false false atol e
  = _ikfast_inverse_kinematics X r pose e /\
  (inverse_kinematics X r pose false false atol e).2 = e.
Proof.
  intros Hik.
  assert (Heq : inverse_kinematics X r pose false false atol e
                = _ikfast_inverse_kinematics X r pose e).
  { unfold inverse_kinematics.
    destruct (ikfast_info (cls r)); [clear Hik|done].
    unfold bind, ret.
    by destruct (_ikfast_inverse_kinematics X r pose e) as [[x|v] e0]. }
  split; [exact Heq|]. rewrite Heq. apply ikfast_leaves_engine.
Qed.

(** X18: on either path, when [inverse_kinematics] with [set_joints=True]
    returns a vector and the chain has no repeated joint, the robot is at
    that vector: [get_joints()] returns it. *)
Theorem applied_ik_result_is_current r js pose validate atol e v e' :
  arm_joints X r = inr js ->
  NoDup js ->
  inverse_kinematics X r pose validate true atol e = (inr v, e') ->
  get_joints X r e' = inr v.
Proof.
  intros Hjs Hnd Hik. unfold inverse_kinematics in Hik.
  match type of Hik with
  | bind ?m _ e = _ => destruct (m e) as [[x|v0] e1] eqn:Hm
  end;
    unfold bind at 1 in Hik; rewrite Hm in Hik; [done|].
  unfold bind, ret in Hik.
  destruct (set_joints X r v0 e1) as [[x|[]] e2] eqn:Hset; [done|].
  inversion Hik; subst v0 e2.
  by eapply set_joints_reads_back.
Qed.

(** X19: on the analytic path, a validated call with [set_joints=True]
    that raises has not moved the robot: [get_joints()] answers as before
    the call. *)
Theorem failed_validated_ik_keeps_joints r pose atol e x e' :
  ikfast_info (cls r) <> None ->
  inverse_kinematics X r pose true true atol e = (inl x, e') ->
  get_joints X r e' = get_joints X r e.
Proof.
  intros Hik. unfold inverse_kinematics.
  destruct (ikfast_info (cls r)); [clear Hik|done].
  unfold bind, ret.
  pose proof (ikfast_leaves_engine X r pose e) as Hpure.
  destruct (_ikfast_inverse_kinematics X r pose e) as [[y|v] e0];
    cbn in Hpure; subst e0; [by intros [= <- <-]|].
  pose proof (except_ValueError_engine
                (_validate_joints_state X r v pose atol)
                (fun a => InverseKinematicsError (FromValueError a)) e) as Hexc.
  pose proof (validate_restores X r v pose atol e) as Hval.
  destruct (except_ValueError _ _ e) as [[y|[]] e1] eqn:Hrun; cbn in Hexc.
  - intros [= <- <-]. by rewrite Hexc.
  - apply except_ValueError_inr in Hrun.
    destruct (validated_set_succeeds r v pose atol e tt e1 Hrun) as [e2 Hset].
    by rewrite Hset.
Qed.

(** X20: on the analytic path, what a validated call returns or raises
    does not depend on the [set_joints] flag. *)
Theorem validated_ik_result_ignores_flag r pose atol e :
  ikfast_info (cls r) <> None ->
  (inverse_kinematics X r pose true true atol e).1
  = (inverse_kinematics X r pose true false atol e).1.
Proof.
  intros Hik. unfold inverse_kinematics.
  destruct (ikfast_info (cls r)); [clear Hik|done].
  unfold bind, ret.
  destruct (_ikfast_inverse_kinematics X r pose e) as [[y|v] e0]; [done|].
  destruct (except_ValueError _ _ e0) as [[y|[]] e1] eqn:Hrun; [done|].
  apply except_ValueError_inr in Hrun.
  destruct (validated_set_succeeds r v pose atol e0 tt e1 Hrun) as [e2 Hset].
  by rewrite Hset.
Qed.

(** X21: on a robot without IKFast info, [inverse_kinematics] with
    [set_joints=False] is the generic solver called on the end-effector
    id, the target position and orientation, the whole chain and the
    caller's [validate] flag; and with [set_joints=True] a failure of the
    solver is raised as it is, on the engine the solver left. *)
Theorem generic_path_is_the_solver r ee js pose validate atol e :
  ikfast_info (cls r) = None ->
  end_effector_id r = inr ee ->
  arm_joints X r = inr js ->
  inverse_kinematics X r pose validate false atol e
  = pybullet_inverse_kinematics X ee (position pose) (orientation pose) js
      validate e /\
  (forall x e',
     pybullet_inverse_kinematics X ee (position pose) (orientation pose) js
       validate e = (inl x, e') ->
     inverse_kinematics X r pose validate true atol e = (inl x, e')).
Proof.
  intros Hik Hee Hjs. unfold inverse_kinematics. rewrite Hik.
  unfold bind, lift, ret. rewrite Hee, Hjs. split.
  - by destruct (pybullet_inverse_kinematics X ee _ _ js validate e)
      as [[x|v] e1].
  - intros x e' Hsolver. by rewrite Hsolver.
Qed.

(** X22: [__init__] loads the body first.  If the body's chain cannot
    be built, or the home vector in force (the caller's non-empty one,
    else the class default) has not the chain's length, the constructor
    raises the chain's exception, respectively the assertion failure,
    and the engine is the one [loadURDF] left: no joint was written. *)
Theorem init_failures c base_pose mode home e b e1 :
  loadURDF X (urdf_path c) base_pose e = (inr b, e1) ->
  let home' := match home with
               | Some (x :: l) => x :: l
               | _ => default_home_joint_positions c
               end in
  let r := mkRobot c base_pose mode home' b in
  (forall x, arm_joints X r = inl x ->
     __init__ X c base_pose mode home e = (inl x, e1)) /\
  (forall js, arm_joints X r = inr js -> length home' <> length js ->
     __init__ X c base_pose mode home e = (inl AssertionError, e1)).
Proof.
  intros Hload home' r. split.
  - intros x Hx.
    pose proof (set_joints_no_chain X r x (home_joint_positions r) e1 Hx) as Hs.
    unfold __init__, bind. rewrite Hload. cbv zeta.
    subst r home'. by rewrite Hs.
  - intros js Hjs Hlen.
    pose proof (set_joints_mismatch X r js (home_joint_positions r) e1 Hjs Hlen)
      as Hs.
    unfold __init__, bind. rewrite Hload. cbv zeta.
    subst r home'. by rewrite Hs.
Qed.

End InverseKinematics.

(** X23: when the loaded body's chain can be built, the engine knows
    its joints and the home vector in force has the chain's length,
    [__init__] returns the instance with the caller's base pose and
    control mode and that home vector, on the engine in which the chain
    joints hold the home vector and no motor command was added. *)
Theorem init_succeeds (X : External) c base_pose mode home e b e1 js :
  loadURDF X (urdf_path c) base_pose e = (inr b, e1) ->
  let home' := match home with
               | Some (x :: l) => x :: l
               | _ => default_home_joint_positions c
               end in
  let r := mkRobot c base_pose mode home' b in
  arm_joints X r = inr js ->
  length home' = length js ->
  present (joints e1) js ->
  __init__ X c base_pose mode home e
  = (inr r, mkEngine (writes (zip js home') (joints e1)) (commands e1)).
Proof.
  intros Hload home' r Hjs Hlen Hp.
  pose proof (set_joints_ok X r js (home_joint_positions r) e1 Hjs Hlen Hp) as Hs.
  unfold __init__, bind. rewrite Hload. cbv zeta.
  subst r home'. by rewrite Hs.
Qed.

(* ===================================================================== *)
(** ** The further properties on the concrete robots *)

Lemma set_joints_then_get_joints_witness :
  get_joints world_none (slider "reset" slider_home)
    (set_joints world_none (slider "reset" slider_home)
       [0.7; 0; 0.01; 0.02]%Q slider_engine).2
  = inr [0.7; 0; 0.01; 0.02]%Q.
Proof.
  apply (set_joints_then_get_joints world_none (slider "reset" slider_home)
           [0; 3; 1; 2] [0.7; 0; 0.01; 0.02]%Q slider_engine).
  - vm_compute. reflexivity.
  - apply (bool_decide_unpack _). vm_compute. exact I.
  - vm_compute. reflexivity.
Defined.

Lemma set_joints_frame_witness :
  (exists s,
     joints (set_joints world_five five_axis
               [0.1; 0.2; 0.3; 0.4; 0.5; 0.04; 0.04]%Q busy_engine).2 !! 2
     = Some s /\
     jointVelocity s = 0%Q) /\
  joints (set_joints world_five five_axis
            [0.1; 0.2; 0.3; 0.4; 0.5; 0.04; 0.04]%Q busy_engine).2 !! 0
  = Some (mkJointState 0.5 0.6) /\
  commands (set_joints world_five five_axis
              [0.1; 0.2; 0.3; 0.4; 0.5; 0.04; 0.04]%Q busy_engine).2
  = [mkMotorCommand [2] [0.3]%Q].
Proof.
  destruct (set_joints_frame world_five five_axis
              [2; 4; 6; 9; 10; 11; 12]
              [0.1; 0.2; 0.3; 0.4; 0.5; 0.04; 0.04]%Q busy_engine
              (set_joints world_five five_axis
                 [0.1; 0.2; 0.3; 0.4; 0.5; 0.04; 0.04]%Q busy_engine).2)
    as (Hin & Hout & Hcmd).
  - vm_compute. reflexivity.
  - vm_compute. reflexivity.
  - split; [|split].
    + apply Hin. apply (bool_decide_unpack _). vm_compute. exact I.
    + rewrite Hout; [reflexivity|].
      apply (bool_decide_unpack _). vm_compute. exact I.
    + rewrite Hcmd. reflexivity.
Defined.

Lemma set_joints_overwrites_witness :
  set_joints world_none (slider "reset" slider_home) [0.7; 0; 0.01; 0.02]%Q
    (set_joints world_none (slider "reset" slider_home)
       [0.1; 0.2; 0.03; 0.04]%Q slider_engine).2
  = set_joints world_none (slider "reset" slider_home) [0.7; 0; 0.01; 0.02]%Q
      slider_engine.
Proof.
  apply (set_joints_overwrites world_none (slider "reset" slider_home)
           [0; 3; 1; 2] [0.7; 0; 0.01; 0.02]%Q [0.1; 0.2; 0.03; 0.04]%Q
           slider_engine).
  - vm_compute. reflexivity.
  - reflexivity.
  - vm_compute. reflexivity.
Defined.

Lemma set_motors_position_one_command_witness :
  set_motors world_none (slider "position" slider_home) [0.7; 0; 0.01; 0.02]%Q
    slider_engine
  = (inr tt,
     mkEngine (joints slider_engine)
       [mkMotorCommand [0; 3; 1; 2] [0.7; 0; 0.01; 0.02]%Q]) /\
  get_joints world_none (slider "position" slider_home)
    (set_motors world_none (slider "position" slider_home)
       [0.7; 0; 0.01; 0.02]%Q slider_engine).2
  = get_joints world_none (slider "position" slider_home) slider_engine.
Proof.
  apply (set_motors_position_one_command world_none
           (slider "position" slider_home) [0; 3; 1; 2]
           [0.7; 0; 0.01; 0.02]%Q slider_engine).
  - vm_compute. reflexivity.
  - reflexivity.
  - reflexivity.
Defined.

Lemma set_motors_length_checked_first_witness :
  set_motors world_none (slider "torque" slider_home) [0.7; 0]%Q slider_engine
  = (inl AssertionError, slider_engine).
Proof.
  apply (set_motors_length_checked_first world_none
           (slider "torque" slider_home) [0; 3; 1; 2]).
  - vm_compute. reflexivity.
  - simpl. lia.
Defined.

Lemma unbuilt_chain_propagates_witness :
  arm_joints world_none misnamed
    = inl (ValueError (NameNotInList "wrist_joint")) /\
  get_joints world_none misnamed slider_engine
    = inl (ValueError (NameNotInList "wrist_joint")) /\
  set_joints world_none misnamed slider_home slider_engine
    = (inl (ValueError (NameNotInList "wrist_joint")), slider_engine) /\
  set_motors world_none misnamed slider_home slider_engine
    = (inl (ValueError (NameNotInList "wrist_joint")), slider_engine) /\
  go_home world_none misnamed slider_engine
    = (inl (ValueError (NameNotInList "wrist_joint")), slider_engine) /\
  forward_kinematics world_none misnamed slider_home slider_engine
    = (inl (ValueError (NameNotInList "wrist_joint")), slider_engine).
Proof.
  destruct (unbuilt_chain_propagates world_none misnamed slider_home
              slider_engine) as [Hname Hall].
  assert (Hchain : arm_joints world_none misnamed
                   = inl (ValueError (NameNotInList "wrist_joint"))).
  { apply Hname. apply (bool_decide_unpack _). vm_compute. exact I. }
  split; [exact Hchain|]. apply Hall. exact Hchain.
Defined.

Lemma forward_kinematics_composition_witness :
  (exists p,
     forward_kinematics world_none (slider "reset" slider_home)
       [0.7; 0; 0.01; 0.02]%Q slider_engine
     = (inr p,
        (set_joints world_none (slider "reset" slider_home)
           [0.7; 0; 0.01; 0.02]%Q slider_engine).2) /\
     get_end_effector_pose world_none (slider "reset" slider_home)
       (set_joints world_none (slider "reset" slider_home)
          [0.7; 0; 0.01; 0.02]%Q slider_engine).2
     = (inr p,
        (set_joints world_none (slider "reset" slider_home)
           [0.7; 0; 0.01; 0.02]%Q slider_engine).2)) /\
  forward_kinematics world_none (slider "reset" slider_home) [0.7]%Q
    slider_engine = (inl AssertionError, slider_engine).
Proof.
  destruct (forward_kinematics_composition world_none
              (slider "reset" slider_home) [0.7; 0; 0.01; 0.02]%Q
              slider_engine) as [_ Hok].
  destruct (forward_kinematics_composition world_none
              (slider "reset" slider_home) [0.7]%Q slider_engine)
    as [Hfail _].
  split.
  - apply Hok. vm_compute. reflexivity.
  - apply Hfail. vm_compute. reflexivity.
Defined.

Lemma forward_kinematics_then_restore_witness :
  get_joints world_none (slider "reset" slider_home)
    (set_joints world_none (slider "reset" slider_home) [0.7; 0; 0; 0]%Q
       (forward_kinematics world_none (slider "reset" slider_home)
          [0.1; 0.2; 0.03; 0.04]%Q moved_engine).2).2
  = inr [0.7; 0; 0; 0]%Q.
Proof.
  apply (forward_kinematics_then_restore world_none
           (slider "reset" slider_home) [0.7; 0; 0; 0]%Q
           [0.1; 0.2; 0.03; 0.04]%Q moved_engine).
  vm_compute. reflexivity.
Defined.

Lemma forward_kinematics_ignores_prior_set_witness :
  forward_kinematics world_none (slider "reset" slider_home)
    [0.7; 0; 0.01; 0.02]%Q
    (set_joints world_none (slider "reset" slider_home)
       [0.1; 0.2; 0.03; 0.04]%Q slider_engine).2
  = forward_kinematics world_none (slider "reset" slider_home)
      [0.7; 0; 0.01; 0.02]%Q slider_engine.
Proof.
  apply (forward_kinematics_ignores_prior_set world_none
           (slider "reset" slider_home) [0; 3; 1; 2] [0.7; 0; 0.01; 0.02]%Q
           [0.1; 0.2; 0.03; 0.04]%Q slider_engine).
  - vm_compute. reflexivity.
  - reflexivity.
  - vm_compute. reflexivity.
Defined.

Lemma add_fingers_any_order_witness :
  add_fingers 3 1 0.04%Q [0.1; 0.2]%Q = add_fingers 1 3 0.04%Q [0.1; 0.2]%Q /\
  (length (add_fingers 3 1 0.04%Q [0.1; 0.2]%Q) = 4%nat /\
   add_fingers 3 1 0.04%Q [0.1; 0.2]%Q !! 3%nat = Some 0.04%Q /\
   add_fingers 3 1 0.04%Q [0.1; 0.2]%Q !! 1%nat = Some 0.04%Q /\
   delete 1%nat (delete 3%nat (add_fingers 3 1 0.04%Q [0.1; 0.2]%Q))
   = [0.1; 0.2]%Q) /\
  add_fingers 9 7 0.04%Q [0.1; 0.2]%Q = [0.1; 0.2; 0.04; 0.04]%Q.
Proof.
  destruct (add_fingers_any_order 3 1 0.04%Q [0.1; 0.2]%Q)
    as (Hsym & Hin & _); [lia|].
  destruct (add_fingers_any_order 9 7 0.04%Q [0.1; 0.2]%Q)
    as (_ & _ & Hpast); [lia|].
  split; [exact Hsym|]. split.
  - apply Hin. simpl. lia.
  - apply Hpast. simpl. lia.
Defined.

Lemma finger_slots_resolve_witness :
  exists l rf li ri,
    left_finger_id (hooked slider_home) = inr l /\
    right_finger_id (hooked slider_home) = inr rf /\
    left_finger_joint_idx world_hooked (hooked slider_home) = inr li /\
    right_finger_joint_idx world_hooked (hooked slider_home) = inr ri /\
    [0; 1; 3; 1; 2] !! li = Some l /\
    [0; 1; 3; 1; 2] !! ri = Some rf.
Proof.
  apply (finger_slots_resolve world_hooked (hooked slider_home)).
  vm_compute. reflexivity.
Defined.

Lemma ikfast_appends_open_fingers_witness :
  left_finger_joint_idx world_five five_axis = inr 5%nat /\
  right_finger_joint_idx world_five five_axis = inr 6%nat /\
  _ikfast_inverse_kinematics world_five five_axis (pose_at 1) busy_engine
  = (inr [0.1; 0.2; 0.3; 0.4; 0.5; 0.04; 0.04]%Q, busy_engine).
Proof.
  apply (ikfast_appends_open_fingers world_five five_axis
           [2; 4; 6; 9; 10; 11; 12] [0.1; 0.2; 0.3; 0.4; 0.5]%Q []
           (pose_at 1) busy_engine).
  - vm_compute. reflexivity.
  - apply (bool_decide_unpack _). vm_compute. exact I.
  - reflexivity.
  - reflexivity.
Defined.

Lemma finger_state_after_set_joints_witness :
  get_finger_state (slider "reset" slider_home)
    (set_joints world_none (slider "reset" slider_home)
       [0.7; 0; 0.01; 0.02]%Q slider_engine).2
  = (inr 0.01%Q,
     (set_joints world_none (slider "reset" slider_home)
        [0.7; 0; 0.01; 0.02]%Q slider_engine).2).
Proof.
  apply (finger_state_after_set_joints world_none
           (slider "reset" slider_home) [0; 3; 1; 2] [0.7; 0; 0.01; 0.02]%Q
           slider_engine _ 2%nat).
  - vm_compute. reflexivity.
  - apply (bool_decide_unpack _). vm_compute. exact I.
  - vm_compute. reflexivity.
  - vm_compute. reflexivity.
  - reflexivity.
Defined.

Lemma unvalidated_unapplied_ik_is_pure_witness :
  inverse_kinematics world_far (slider "reset" slider_home) (pose_at 1)
    false false 0.001%Q moved_engine
  = (inr [5; 0; 0.04; 0.04]%Q, moved_engine).
Proof.
  destruct (unvalidated_unapplied_ik_is_pure world_far
              (slider "reset" slider_home) (pose_at 1) 0.001%Q moved_engine)
    as [Heq Hengine]; [simpl; discriminate|].
  rewrite Heq. vm_compute. reflexivity.
Defined.

Lemma applied_ik_result_is_current_witness :
  get_joints world_near (slider "reset" slider_home)
    (inverse_kinematics world_near (slider "reset" slider_home) (pose_at 1)
       true true 0.001%Q moved_engine).2
  = inr [1.001005; 0; 0.04; 0.04]%Q /\
  get_joints world_none (plain "reset")
    (inverse_kinematics world_none (plain "reset") (pose_at 1)
       false true 0.001%Q moved_engine).2
  = inr [0; 0; 0; 0]%Q.
Proof.
  split.
  - apply (applied_ik_result_is_current world_near
             (slider "reset" slider_home) [0; 3; 1; 2] (pose_at 1) true
             0.001%Q moved_engine).
    + vm_compute. reflexivity.
    + apply (bool_decide_unpack _). vm_compute. exact I.
    + vm_compute. reflexivity.
  - apply (applied_ik_result_is_current world_none (plain "reset")
             [0; 3; 1; 2] (pose_at 1) false 0.001%Q moved_engine).
    + vm_compute. reflexivity.
    + apply (bool_decide_unpack _). vm_compute. exact I.
    + vm_compute. reflexivity.
Defined.

Lemma failed_validated_ik_keeps_joints_witness :
  get_joints world_far (slider "reset" slider_home)
    (inverse_kinematics world_far (slider "reset" slider_home) (pose_at 1)
       true true 0.001%Q moved_engine).2
  = inr [0.7; 0; 0; 0]%Q.
Proof.
  rewrite (failed_validated_ik_keeps_joints world_far
             (slider "reset" slider_home) (pose_at 1) 0.001%Q moved_engine
             (InverseKinematicsError
                (FromValueError (JointStatesDoNotMatch (1, 0, 0)%Q (5, 0, 0)%Q)))).
  - vm_compute. reflexivity.
  - simpl. discriminate.
  - vm_compute. reflexivity.
Defined.

Lemma validated_ik_result_ignores_flag_witness :
  (inverse_kinematics world_near (slider "reset" slider_home) (pose_at 1)
     true true 0.001%Q moved_engine).1
  = (inverse_kinematics world_near (slider "reset" slider_home) (pose_at 1)
       true false 0.001%Q moved_engine).1.
Proof.
  apply (validated_ik_result_ignores_flag world_near
           (slider "reset" slider_home) (pose_at 1) 0.001%Q moved_engine).
  simpl. discriminate.
Defined.

Lemma generic_path_is_the_solver_witness :
  inverse_kinematics world_far (plain "reset") (pose_at 1) true false
    0.001%Q moved_engine
  = pybullet_inverse_kinematics world_far 3 (1, 0, 0)%Q (0, 0, 0, 1)%Q
      [0; 3; 1; 2] true moved_engine.
Proof.
  apply (generic_path_is_the_solver world_far (plain "reset") 3
           [0; 3; 1; 2] (pose_at 1) true 0.001%Q moved_engine).
  - reflexivity.
  - vm_compute. reflexivity.
  - vm_compute. reflexivity.
Defined.

Lemma init_failures_witness :
  __init__ world_none misnamed_class identity_pose "reset" None empty_engine
  = (inl (ValueError (NameNotInList "wrist_joint")), slider_engine) /\
  __init__ world_none slider_class identity_pose "reset"
    (Some [0.5; 0]%Q) empty_engine
  = (inl AssertionError, slider_engine).
Proof.
  split.
  - apply (init_failures world_none misnamed_class identity_pose "reset"
             None empty_engine slider_body slider_engine).
    + reflexivity.
    + vm_compute. reflexivity.
  - apply (init_failures world_none slider_class identity_pose "reset"
             (Some [0.5; 0]%Q) empty_engine slider_body slider_engine
             eq_refl) with [0; 3; 1; 2].
    + vm_compute. reflexivity.
    + simpl. lia.
Defined.

Lemma init_succeeds_witness :
  __init__ world_none slider_class identity_pose "position"
    (Some [0.5; 0; 0.04; 0.04]%Q) empty_engine
  = (inr (slider "position" [0.5; 0; 0.04; 0.04]%Q),
     mkEngine
       (writes (zip [0; 3; 1; 2] [0.5; 0; 0.04; 0.04]%Q)
          (fresh_joints slider_body))
       []).
Proof.
  apply (init_succeeds world_none slider_class identity_pose "position"
           (Some [0.5; 0; 0.04; 0.04]%Q) empty_engine slider_body
           slider_engine [0; 3; 1; 2]).
  - reflexivity.
  - vm_compute. reflexivity.
  - reflexivity.
  - unfold present. apply (bool_decide_unpack _). vm_compute. exact I.
Defined.

(* ===================================================================== *)
(** ** Outcome of the analytic path *)

Section AnalyticOutcome.

Variable X : External.

(** The run of [_validate_joints_state] on a built chain the engine
    knows, for a vector of chain length. *)
Lemma validate_run r js ee v pose atol e :
  arm_joints X r = inr js ->
  end_effector_id r = inr ee ->
  present (joints e) js ->
  length v = length js ->
  let ea := mkEngine (writes (zip js v) (joints e)) (commands e) in
  let ee_pos := worldLinkFramePosition (get_link_state X ee ea) in
  _validate_joints_state X r v pose atol e
  = (if allclose ee_pos (position pose) atol
     then inr tt
     else inl (ValueError (JointStatesDoNotMatch (position pose) ee_pos)),
     mkEngine
       (writes (zip js (map (position_of (joints e)) js)) (joints ea))
       (commands e)).
Proof.
  intros Hjs Hee Hp Hlen ea ee_pos.
  destruct (restore_reads_back X r js v e Hjs Hlen Hp) as [Hset _].
  assert (Hget : get_joints X r e = inr (map (position_of (joints e)) js)).
  { unfold get_joints, pbind. rewrite Hjs.
    by apply get_joint_positions_present. }
  unfold _validate_joints_state, bind, query, lift, raise, ret.
  rewrite Hget. cbv beta iota.
  rewrite (set_joints_ok X r js v e Hjs Hlen Hp) in *. cbn [snd] in Hset.
  rewrite Hee. cbv beta iota. rewrite Hset.
  subst ee_pos ea. by destruct (allclose _ _ _).
Qed.

Lemma ikfast_run r js sol others pose e :
  arm_joints X r = inr js ->
  ikfast_closest_inverse_kinematics X r pose e = sol :: others ->
  exists li ri,
    left_finger_joint_idx X r = inr li /\
    right_finger_joint_idx X r = inr ri /\
    _ikfast_inverse_kinematics X r pose e
    = (inr (add_fingers li ri (open_fingers (cls r)) sol), e).
Proof.
  intros Hjs Hsol.
  destruct (arm_joints_inr X r js Hjs)
    as (ee & chain & l & rf & Hee & Hch & Hl & Hrf & Hjseq).
  assert (Hlin : l ∈ js).
  { rewrite Hjseq. apply elem_of_app. right. by left. }
  assert (Hrin : rf ∈ js).
  { rewrite Hjseq. apply elem_of_app. right. right. by left. }
  destruct (finger_idx_inr X r js l _ Hjs Hl Hlin) as (li & Hli & _).
  destruct (finger_idx_inr X r js rf _ Hjs Hrf Hrin) as (ri & Hri & _).
  exists li, ri. repeat split; try done.
  unfold _ikfast_inverse_kinematics, bind, query, lift, ret.
  fold (left_finger_joint_idx X r) in Hli.
  fold (right_finger_joint_idx X r) in Hri.
  by rewrite Hsol, Hli, Hri.
Qed.

(** X24: when the analytic solver's first solution is not two entries
    shorter than the chain, the call raises the assertion failure of
    [set_joints] on an unchanged engine: from the validation, which does
    not turn it into an [InverseKinematicsError], or, unvalidated, from
    the final [set_joints]. *)
Theorem wrong_arity_solution_is_asserted r js sol others pose atol e :
  ikfast_info (cls r) <> None ->
  arm_joints X r = inr js ->
  ikfast_closest_inverse_kinematics X r pose e = sol :: others ->
  S (S (length sol)) <> length js ->
  (present (joints e) js ->
   forall sj,
     inverse_kinematics X r pose true sj atol e = (inl AssertionError, e)) /\
  inverse_kinematics X r pose false true atol e = (inl AssertionError, e).
Proof.
  intros Hik Hjs Hsol Hlen.
  destruct (ikfast_run r js sol others pose e Hjs Hsol)
    as (li & ri & _ & _ & Hrun).
  set (v := add_fingers li ri (open_fingers (cls r)) sol) in *.
  assert (Hv : length v <> length js).
  { unfold v. by rewrite add_fingers_length. }
  unfold inverse_kinematics.
  destruct (ikfast_info (cls r)); [clear Hik|done].
  unfold bind, ret. rewrite Hrun. split.
  - intros Hp sj. unfold except_ValueError, _validate_joints_state, bind, query.
    unfold get_joints, pbind. rewrite Hjs.
    rewrite (get_joint_positions_present js e Hp).
    by rewrite (set_joints_mismatch X r js v e Hjs Hv).
  - by rewrite (set_joints_mismatch X r js v e Hjs Hv).
Qed.

(** X25: on a built chain the engine knows, with a first solution two
    entries shorter than the chain, a validated call returns the
    finger-extended solution exactly when the end-effector position
    reached by writing it passes [allclose] against the target position,
    and otherwise raises [InverseKinematicsError] carrying the target and
    the reached position; the [set_joints] flag plays no part. *)
Theorem validated_ik_outcome r js ee li ri sol others pose atol sj e :
  ikfast_info (cls r) <> None ->
  arm_joints X r = inr js ->
  end_effector_id r = inr ee ->
  left_finger_joint_idx X r = inr li ->
  right_finger_joint_idx X r = inr ri ->
  present (joints e) js ->
  ikfast_closest_inverse_kinematics X r pose e = sol :: others ->
  S (S (length sol)) = length js ->
  let v := add_fingers li ri (open_fingers (cls r)) sol in
  let ee_pos :=
    worldLinkFramePosition
      (get_link_state X ee
         (mkEngine (writes (zip js v) (joints e)) (commands e))) in
  (inverse_kinematics X r pose true sj atol e).1
  = if allclose ee_pos (position pose) atol
    then inr v
    else inl (InverseKinematicsError
                (FromValueError (JointStatesDoNotMatch (position pose) ee_pos))).
Proof.
  intros Hik Hjs Hee Hli Hri Hp Hsol Hlen v ee_pos.
  assert (Hv : length v = length js).
  { unfold v. by rewrite add_fingers_length. }
  pose proof (validate_run r js ee v pose atol e Hjs Hee Hp Hv) as Hval.
  cbv zeta in Hval. fold ee_pos in Hval.
  unfold inverse_kinematics.
  destruct (ikfast_info (cls r)); [clear Hik|done].
  unfold bind, ret.
  unfold _ikfast_inverse_kinematics at 1, bind, query, lift, ret.
  rewrite Hsol, Hli, Hri. fold v.
  unfold except_ValueError. rewrite Hval.
  destruct (allclose ee_pos (position pose) atol); [|done].
  destruct sj; [|done].
  rewrite (set_joints_ok X r js v _ Hjs Hv); [done|].
  cbn. by do 2 apply writes_present.
Qed.

End AnalyticOutcome.

Lemma wrong_arity_solution_is_asserted_witness :
  inverse_kinematics (demo_external slider_body [[5]%Q])
    (slider "reset" slider_home) (pose_at 1) true false 0.001%Q moved_engine
  = (inl AssertionError, moved_engine) /\
  inverse_kinematics (demo_external slider_body [[5]%Q])
    (slider "reset" slider_home) (pose_at 1) false true 0.001%Q moved_engine
  = (inl AssertionError, moved_engine).
Proof.
  destruct (wrong_arity_solution_is_asserted
              (demo_external slider_body [[5]%Q])
              (slider "reset" slider_home) [0; 3; 1; 2] [5]%Q [] (pose_at 1)
              0.001%Q moved_engine) as [Hval Hset].
  - simpl. discriminate.
  - vm_compute. reflexivity.
  - reflexivity.
  - simpl. lia.
  - split; [|exact Hset]. apply Hval.
    unfold present. apply (bool_decide_unpack _). vm_compute. exact I.
Defined.

Lemma validated_ik_outcome_witness :
  (inverse_kinematics world_near (slider "reset" slider_home) (pose_at 1)
     true true 0.001%Q moved_engine).1
  = inr [1.001005; 0; 0.04; 0.04]%Q /\
  (inverse_kinematics world_far (slider "reset" slider_home) (pose_at 1)
     true true 0.001%Q moved_engine).1
  = inl (InverseKinematicsError
           (FromValueError (JointStatesDoNotMatch (1, 0, 0)%Q (5, 0, 0)%Q))).
Proof.
  split.
  - rewrite (validated_ik_outcome world_near (slider "reset" slider_home)
               [0; 3; 1; 2] 3 2 3 [1.001005; 0]%Q [] (pose_at 1) 0.001%Q true
               moved_engine).
    + vm_compute. reflexivity.
    + simpl. discriminate.
    + vm_compute. reflexivity.
    + vm_compute. reflexivity.
    + vm_compute. reflexivity.
    + vm_compute. reflexivity.
    + unfold present. apply (bool_decide_unpack _). vm_compute. exact I.
    + reflexivity.
    + reflexivity.
  - rewrite (validated_ik_outcome world_far (slider "reset" slider_home)
               [0; 3; 1; 2] 3 2 3 [5; 0]%Q [] (pose_at 1) 0.001%Q true
               moved_engine).
    + vm_compute. reflexivity.
    + simpl. discriminate.
    + vm_compute. reflexivity.
    + vm_compute. reflexivity.
    + vm_compute. reflexivity.
    + vm_compute. reflexivity.
    + unfold present. apply (bool_decide_unpack _). vm_compute. exact I.
    + reflexivity.
    + reflexivity.
Defined.
